(** * ThePowerSite catalog API: endpoints of [main.py] over the schemas of
    [schemas.py].

    The handlers are embedded as functions of the store they read and write.
    The document store is a record of collections, each a list of stored
    documents in store order.  Python [int] is [Z], [float] is [Q] (the finite
    values; comparisons of finite floats agree with those of the rationals
    they denote), [str] is [string], the sequence of its characters,
    [Optional[T]] is [option T], a stored [datetime] is the [Z] count of its
    milliseconds, the precision the store keeps.  Two library operations
    are taken as they are, without a model of their own: pydantic's
    [HttpUrl] and the store's [$regex]. *)

From Stdlib Require Import ZArith QArith Bool List String Ascii Lia.
From Stdlib Require Import Permutation Sorted.
Import ListNotations.
Open Scope string_scope.
Open Scope Z_scope.

Set Implicit Arguments.

(** ** Schemas ([schemas.py]) *)

Record PriceInfo := mkPriceInfo {
  inc_vat : Q;
  ex_vat : Q;
  currency : string;
  finance_available : bool
}.

(** A stored [media] sub-document may lack its [images] key: the second seeded
    product has no [video_url], and [search] reads [images] with a default. *)
Record Media := mkMedia {
  images : option (list string);
  video_url : option string;
  spin_360_url : option string
}.

Record SpecItem := mkSpecItem { label : string; value : string }.

(** A product document.  The keys the handlers read with [p[...]] or name in a
    query are fields; [media], read with [p.get("media", {})], may be absent. *)
Record Product := mkProduct {
  sku : string;
  title : string;
  short_bullets : list string;
  description : option string;
  brand : string;
  category : string;
  power_source : option string;
  capacity : option string;
  size : option string;
  weight_kg : option Q;
  application : option (list string);
  price : PriceInfo;
  media : option Media;
  specs : list SpecItem;
  rating_avg : Q;
  rating_count : Z;
  accessories : list string;
  related_skus : list string;
  stock : Z
}.

(** [class Review]: the validated request body of [post_review]. *)
Record Review := mkReview {
  review_sku : string;
  review_title : string;
  review_body : string;
  rating : Z;
  author : string
}.

Record SparePart := mkSparePart {
  spare_sku : string;
  spare_title : string;
  compatible_skus : list string;
  spare_price : PriceInfo
}.

Record Address := mkAddress {
  full_name : string;
  line1 : string;
  line2 : option string;
  city : string;
  county : option string;
  postcode : string;
  country : string
}.

Record OrderItem := mkOrderItem {
  item_sku : string;
  item_title : string;
  qty : Z;
  unit_price_inc_vat : Q
}.

Record Order := mkOrder {
  email : string;
  phone : option string;
  shipping_address : Address;
  billing_address : option Address;
  items : list OrderItem;
  total_inc_vat : Q;
  payment_method : string
}.

Record SearchSuggestion := mkSearchSuggestion {
  sug_sku : string;
  sug_title : string;
  sug_brand : string;
  sug_category : string;
  price_inc_vat : Q;
  image : option string
}.

(** ** The document store

    A stored document carries the identifier the store gave it; the handlers
    read with the projection [{"_id": 0}], which drops it.  Documents written
    through [create_document] carry a creation time. *)

Record Document (A : Type) := mkDocument { _id : Z; fields : A }.

Record Stamped (A : Type) := mkStamped { data : A; created_at : Z }.

Record Store := mkStore {
  product : list (Document Product);
  review : list (Document (Stamped Review));
  sparepart : list (Document SparePart);
  order : list (Document (Stamped Order));
  next_id : Z
}.

(** What a handler can raise: [HTTPException] of the handlers themselves,
    the 422 answer of the framework to a body or parameter that fails its
    declared model, pymongo's [ValueError] and [OverflowError], the store's
    [OperationFailure], and pydantic's [ValidationError] when a response
    model is built from a stored value that does not fit. *)
Inductive exn :=
| HTTPException (status_code : Z) (detail : string)
| RequestValidationError (loc : string)
| ValueError (msg : string)
| OverflowError
| OperationFailure
| ValidationError (loc : string).

(** The outcome of a handler. *)
Inductive result (A : Type) :=
| Return (a : A)
| Raise (e : exn).

Arguments Return {A} a.
Arguments Raise {A} e.

Definition bind {A B : Type} (m : result A) (k : A -> result B) : result B :=
  match m with
  | Return a => k a
  | Raise e => Raise e
  end.

Notation "x <- m ;; k" := (bind m (fun x => k))
  (at level 61, m at next level, right associativity).

Definition NotFound : exn := HTTPException 404 "Product not found".
Definition StoreUnavailable : exn := HTTPException 500 "Database unavailable".

(** *** Cursors (pymongo)

    A cursor is lazy: [find], [sort] and [limit] only record what to ask, and
    [skip] refuses a negative count at once.  The command is encoded and sent
    when the cursor is listed: encoding refuses an integer of more than 8
    bytes before the store sees the query; the store then answers with the
    documents that match, in order, or refuses the query.  A limit of 0 means
    no limit; a negative limit is sent as its absolute value with the
    request of a single batch, and a first batch holds at most 101
    documents (the documents of this store are small against the 16 MB a
    batch may hold). *)

Module Cursor.

Record t (A : Type) := mk {
  answer : result (list A);
  skipped : Z;
  limited : Z
}.

Definition find {A : Type} (answer : result (list A)) : t A := mk answer 0 0.

Definition sort {A : Type} (order : list A -> list A) (c : t A) : t A :=
  mk (docs <- answer c ;; Return (order docs)) (skipped c) (limited c).

Definition skip {A : Type} (n : Z) (c : t A) : result (t A) :=
  if n <? 0 then Raise (ValueError "skip must be >= 0")
  else Return (mk (answer c) n (limited c)).

Definition limit {A : Type} (n : Z) (c : t A) : t A :=
  mk (answer c) (skipped c) n.

Definition first_batch : nat := 101.

(** The documents from the [s]-th on: all of them when [l] is 0, at most [l]
    of them when [l] is positive, a single batch of at most [-l] of them
    when [l] is negative. *)
Definition window {A : Type} (s l : Z) (docs : list A) : list A :=
  let rest := skipn (Z.to_nat s) docs in
  if l =? 0 then rest
  else if 0 <? l then firstn (Z.to_nat l) rest
  else firstn (Nat.min (Z.to_nat (- l)) first_batch) rest.

(** Whether a non-negative integer fits the 8 bytes of a BSON integer. *)
Definition max_int64 : Z := 9223372036854775807.

Definition int64 (n : Z) : bool := n <=? max_int64.

Definition list {A : Type} (c : t A) : result (list A) :=
  if int64 (skipped c) && int64 (Z.abs (limited c)) then
    docs <- answer c ;;
    Return (window (skipped c) (limited c) docs)
  else Raise OverflowError.

End Cursor.

Definition count_documents {A : Type} (matching : list A) : Z :=
  Z.of_nat (List.length matching).

(** *** Text and case

    Letters are compared without case as the store compares them: on the
    characters a [string] holds, an upper-case letter, A to Z or accented,
    and its lower-case letter are the same. *)

Definition lower (c : ascii) : ascii :=
  let n := N_of_ascii c in
  if ((65 <=? n) && (n <=? 90) ||
      (192 <=? n) && (n <=? 222) && negb (n =? 215))%N
  then ascii_of_N (n + 32) else c.

Fixpoint lowercase (s : string) : string :=
  match s with
  | EmptyString => EmptyString
  | String c s' => String (lower c) (lowercase s')
  end.

(** The characters with a meaning of their own in a pattern, and the one
    character a pattern must not hold. *)
Definition metachar (c : ascii) : bool :=
  existsb (Ascii.eqb c)
    ["\"; "^"; "$"; "."; "|"; "?"; "*"; "+"; "("; ")"; "["; "]"; "{"; "}";
     "000"]%char.


(** *** A pattern matcher for the examples

    It interprets the patterns made of ordinary characters, which match
    themselves without case, and of [.], which matches any character but a
    line feed, searched anywhere in the subject: on these it does what the
    store does.  It refuses every other pattern, which the store may well
    accept: the examples give it none, and no theorem about the handlers
    rests on it. *)

Inductive atom := Lit (c : ascii) | Dot.

Definition regex := list atom.

Fixpoint regex_compile (q : string) : option regex :=
  match q with
  | EmptyString => Some []
  | String c q' =>
      match regex_compile q' with
      | None => None
      | Some re =>
          if Ascii.eqb c "." then Some (Dot :: re)
          else if metachar c then None
          else Some (Lit c :: re)
      end
  end.

Definition atom_matches (a : atom) (c : ascii) : bool :=
  match a with
  | Lit l => Ascii.eqb (lower l) (lower c)
  | Dot => negb (Ascii.eqb c "010")
  end.

Fixpoint regex_match_here (re : regex) (s : string) : bool :=
  match re, s with
  | [], _ => true
  | _ :: _, EmptyString => false
  | a :: re', String c s' => atom_matches a c && regex_match_here re' s'
  end.

Fixpoint regex_search (re : regex) (s : string) : bool :=
  regex_match_here re s ||
  match s with
  | EmptyString => false
  | String _ s' => regex_search re s'
  end.


Definition dots_and_letters (q : string) : option (string -> bool) :=
  option_map regex_search (regex_compile q).

(** A URL validator for the examples: it keeps, as it is, a string that
    begins with the http or https scheme and goes on, and refuses the
    others.  On the URLs of the examples, which are in normal form, and on
    the strings of the examples that are no URL, it does what [HttpUrl]
    does; no theorem about the handlers rests on it. *)
Definition scheme_and_more (u : string) : option string :=
  if (prefix "http://" u && (7 <? String.length u)%nat) ||
     (prefix "https://" u && (8 <? String.length u)%nat)
  then Some u else None.

(** The same, but for one URL whose normal form differs from it: a URL
    without a path is given its root path. *)
Definition root_path_added (u : string) : option string :=
  if String.eqb u "http://example.com" then Some "http://example.com/"
  else scheme_and_more u.

(** *** Filter documents

    A filter document is the list of its entries; a document matches when
    every entry holds of it.  A [$regex] entry holds the test its pattern
    stands for. *)

Inductive product_cond :=
| brand_is (v : string)
| category_is (v : string)
| power_source_is (v : string)
| price_inc_vat_between (gte lte : option Q)
| sku_is (v : string)
| sku_in (vs : list string)
| title_regex_i (test : string -> bool).

Definition in_list (s : string) (l : list string) : bool :=
  existsb (String.eqb s) l.

Definition bound_holds (cmp : Q -> Q -> bool) (bound : option Q) (x : Q) : bool :=
  match bound with
  | None => true
  | Some b => cmp b x
  end.

Definition product_holds (p : Product) (c : product_cond) : bool :=
  match c with
  | brand_is v => String.eqb (brand p) v
  | category_is v => String.eqb (category p) v
  | power_source_is v =>
      match power_source p with
      | Some ps => String.eqb ps v
      | None => false
      end
  | price_inc_vat_between gte lte =>
      bound_holds (fun b x => Qle_bool b x) gte (inc_vat (price p)) &&
      bound_holds (fun b x => Qle_bool x b) lte (inc_vat (price p))
  | sku_is v => String.eqb (sku p) v
  | sku_in vs => in_list (sku p) vs
  | title_regex_i test => test (title p)
  end.

Definition find {A C : Type} (holds : A -> C -> bool) (query : list C)
    (collection : list (Document A)) : list (Document A) :=
  filter (fun d => forallb (holds (fields d)) query) collection.

(** The projection [{"_id": 0}]. *)
Definition without_id {A : Type} (cursor : list (Document A)) : list A :=
  map (@fields A) cursor.

Definition find_one {A C : Type} (holds : A -> C -> bool) (query : list C)
    (collection : list (Document A)) : option (Document A) :=
  hd_error (find holds query collection).

Inductive review_cond := review_sku_is (v : string).

Definition review_holds (r : Stamped Review) (c : review_cond) : bool :=
  match c with
  | review_sku_is v => String.eqb (review_sku (data r)) v
  end.

(** An equality entry on an array field holds when the array has the value as
    an element. *)
Inductive spare_cond :=
| compatible_skus_has (v : string)
| spare_title_regex_i (test : string -> bool).

Definition spare_holds (s : SparePart) (c : spare_cond) : bool :=
  match c with
  | compatible_skus_has v => in_list v (compatible_skus s)
  | spare_title_regex_i test => test (spare_title s)
  end.

(** [sort("created_at", -1)]: most recent first; documents of equal time keep
    their store order. *)
Fixpoint insert_desc (d : Document (Stamped Review))
    (l : list (Document (Stamped Review))) : list (Document (Stamped Review)) :=
  match l with
  | [] => [d]
  | e :: l' =>
      if created_at (fields e) <=? created_at (fields d) then d :: e :: l'
      else e :: insert_desc d l'
  end.

Definition sort_created_at_desc (l : list (Document (Stamped Review)))
  : list (Document (Stamped Review)) :=
  fold_right insert_desc [] l.
(** ** The seeded catalogue ([seed_data]) and fixtures *)

Definition HY2000i : Product :=
  mkProduct "HY2000i" "Hyundai 2000W Inverter Generator"
    ["2000W peak power"; "Super-quiet 58dB"; "Lightweight 21kg"] None
    "hyundai" "generators" (Some "petrol") (Some "2kW") None (Some 21%Q) None
    (mkPriceInfo (59999 # 100) (49999 # 100) "GBP" true)
    (Some (mkMedia
             (Some ["https://images.unsplash.com/photo-1547234935-80c7145ec969?w=900"])
             None None))
    [mkSpecItem "Output" "2000W peak / 1600W rated"; mkSpecItem "Noise" "58dB @ 7m"]
    (46 # 10) 124 ["HYCABLE1"] ["HY3000i"] 12.

Definition JCB_18V_IMPACT : Product :=
  mkProduct "JCB-18V-IMPACT" "JCB 18V Brushless Impact Driver"
    ["High-torque brushless motor"; "Compact body for tight spaces"; "LED work light"]
    None "jcb" "chainsaws" (Some "battery") (Some "18V") None (Some (14 # 10)) None
    (mkPriceInfo (12999 # 100) (10833 # 100) "GBP" false)
    (Some (mkMedia
             (Some ["https://images.unsplash.com/photo-1581093588401-16ec5a7b1d86?w=900"])
             None None))
    [mkSpecItem "Chuck" "1/4"; mkSpecItem "Max Torque" "180Nm"]
    (44 # 10) 54 ["JCB-18V-BAT"; "JCB-FAST-CHARGER"] ["JCB-18V-DRILL"] 30.

Definition seeded : Store :=
  mkStore [mkDocument 1 HY2000i; mkDocument 2 JCB_18V_IMPACT] [] [] [] 3.

(** A product with the given key fields and the schema's defaults. *)
Definition plain_product (sku title : string) (inc : Q) (accessories : list string)
  : Product :=
  mkProduct sku title [] None "acme" "tools" None None None None None
    (mkPriceInfo inc inc "GBP" true) None [] 0 0 accessories [] 10.

Definition a_review (sku title : string) (at_ : Z) : Stamped Review :=
  mkStamped (mkReview sku title "body" 5 "someone") at_.

(** Product [P] lists accessories [A] and [B], of which only [A] is in the
    catalogue; three reviews of [P] were inserted out of time order;
    one spare part. *)
Definition fixture : Store :=
  mkStore
    [mkDocument 1 (plain_product "P" "Petrol Generator" 499 ["A"; "B"]);
     mkDocument 2 (plain_product "A" "Cable" 10 [])]
    [mkDocument 3 (a_review "P" "second" 20);
     mkDocument 4 (a_review "A" "other" 25);
     mkDocument 5 (a_review "P" "third" 30);
     mkDocument 6 (a_review "P" "first" 10)]
    [mkDocument 7 (mkSparePart "SP1" "Spark plug" ["P"] (mkPriceInfo 5 4 "GBP" true))]
    [] 8.

(** Two reviews of [P] posted at the same moment. *)
Definition tied : Store :=
  mkStore [mkDocument 1 (plain_product "P" "Petrol Generator" 499 [])]
    [mkDocument 2 (a_review "P" "one" 10); mkDocument 3 (a_review "P" "other" 10)]
    [] [] 4.

(** A product whose first image is no URL. *)
Definition bad_image : Store :=
  mkStore
    [mkDocument 1
       (mkProduct "B" "Battery" [] None "acme" "tools" None None None None None
          (mkPriceInfo 5 4 "GBP" true)
          (Some (mkMedia (Some ["not a url"]) None None)) [] 0 0 [] [] 10)]
    [] [] [] 2.

(** ** Seeding ([seed_data])

    The brand and category collections, beside the collections the handlers
    above use. *)

Record Brand := mkBrand {
  brand_name : string;
  brand_slug : string;
  color : option string;
  logo_url : option string
}.

Record Category := mkCategory {
  category_name : string;
  category_slug : string;
  parent_slug : option string;
  image_url : option string
}.

Module Db.

Record t := mk {
  store : Store;
  brand : list (Document Brand);
  category : list (Document Category)
}.

End Db.

(** [update_one(filter, {"$set": ...}, upsert=True)]: the first document the
    filter matches is updated in place and keeps its identifier; when none
    matches, one document is inserted. *)
Fixpoint update_first {A : Type} (matches : A -> bool) (set : A -> A)
    (c : list (Document A)) : option (list (Document A)) :=
  match c with
  | [] => None
  | d :: c' =>
      if matches (fields d) then Some (mkDocument (_id d) (set (fields d)) :: c')
      else match update_first matches set c' with
           | Some c'' => Some (d :: c'')
           | None => None
           end
  end.

Definition upsert {A : Type} (matches : A -> bool) (set : A -> A) (fresh : A)
    (c_id : list (Document A) * Z) : list (Document A) * Z :=
  let (c, id) := c_id in
  match update_first matches set c with
  | Some c' => (c', id)
  | None => ((c ++ [mkDocument id fresh])%list, id + 1)
  end.

Definition demo_brand_hyundai : Brand :=
  mkBrand "Hyundai Power Products" "hyundai" (Some "#1e40af")
    (Some "https://upload.wikimedia.org/wikipedia/commons/2/27/Hyundai_logo.svg").

Definition demo_brand_jcb : Brand :=
  mkBrand "JCB Tools" "jcb" (Some "#ffcc00")
    (Some "https://upload.wikimedia.org/wikipedia/commons/8/8e/JCB_logo.svg").

(** The seeded categories: name and slug, [parent_slug] null. *)
Definition categories : list (string * string) :=
  [("Generators", "generators"); ("Pressure Washers", "pressure-washers");
   ("Chainsaws", "chainsaws")].

(** [db["brand"].update_one({"slug": b["slug"]}, {"$set": b}, upsert=True)]:
    [b] gives every key of a brand. *)
Definition upsert_brand (c_id : list (Document Brand) * Z) (b : Brand)
  : list (Document Brand) * Z :=
  upsert (fun x => String.eqb (brand_slug x) (brand_slug b)) (fun _ => b) b c_id.

(** The same for a category: [c] gives [name], [slug] and a null
    [parent_slug]; an [image_url] already stored stays. *)
Definition upsert_category (c_id : list (Document Category) * Z)
    (c : string * string) : list (Document Category) * Z :=
  let (name, slug) := c in
  upsert (fun x => String.eqb (category_slug x) slug)
    (fun old => mkCategory name slug None (image_url old))
    (mkCategory name slug None None) c_id.

Definition seed_data (db : option Db.t) : option Db.t :=
  match db with
  | None => None
  | Some d =>
      let st := Db.store d in
      match find_one product_holds [] (product st) with
      | Some _ => Some d
      | None =>
          let (brands, id1) :=
            fold_left upsert_brand [demo_brand_hyundai; demo_brand_jcb]
              (Db.brand d, next_id st) in
          let (cats, id2) :=
            fold_left upsert_category categories (Db.category d, id1) in
          Some (Db.mk
                  (mkStore
                     (product st ++
                      [mkDocument id2 HY2000i; mkDocument (id2 + 1) JCB_18V_IMPACT])
                     (review st) (sparepart st) (order st) (id2 + 2))
                  brands cats)
      end
  end.

(** An empty database, as the first start finds it. *)
Definition empty_db : Db.t := Db.mk (mkStore [] [] [] [] 1) [] [].

(** Bodies and values for the examples. *)
Definition an_address : Address :=
  mkAddress "A Buyer" "1 High Street" None "Leeds" None "LS1 1AA" "UK".

Definition an_order : Order :=
  mkOrder "buyer@example.com" None an_address None
    [mkOrderItem "HY2000i" "Hyundai 2000W Inverter Generator" 1 (59999 # 100)]
    (59999 # 100) "card".

(** ** The libraries taken as they are

    pydantic's [HttpUrl] gives the URL in its normal form, or nothing for a
    string it refuses.  The store's [$regex] with option [i] gives the test
    a pattern stands for, searched anywhere in the subject with letters
    compared without case, or nothing for a pattern the store refuses. *)

Section Libraries.

Variable HttpUrl : string -> option string.
Variable regex_i : string -> option (string -> bool).

#[local] Set Default Proof Using "Type".

(** ** Handlers ([main.py]) *)

(** [if brand:] on an [Optional[str]]: [None] and the empty string are both
    false. *)
Definition truthy (o : option string) : bool :=
  match o with
  | Some s => negb (String.eqb s "")
  | None => false
  end.

(** [if v: query[key] = v] *)
Definition entry_if {C : Type} (v : option string) (entry : string -> C) : list C :=
  match v with
  | Some s => if truthy v then [entry s] else []
  | None => []
  end.

(** [if q: query["title"] = {"$regex": q, "$options": "i"}]; the store
    refuses the query when it refuses the pattern. *)
Definition regex_entry {C : Type} (q : option string)
    (entry : (string -> bool) -> C) : result (list C) :=
  match q with
  | Some s =>
      if truthy q then
        match regex_i s with
        | Some test => Return [entry test]
        | None => Raise OperationFailure
        end
      else Return []
  | None => Return []
  end.

Record ProductPage := mkProductPage {
  page_items : list Product;
  total : Z;
  page : option Z;
  page_size : option Z
}.

Definition list_products_query (brand category power_source : option string)
    (min_price max_price : option Q) : list product_cond :=
  (entry_if brand brand_is ++
   entry_if category category_is ++
   entry_if power_source power_source_is ++
   match min_price, max_price with
   | None, None => []
   | _, _ => [price_inc_vat_between min_price max_price]
   end)%list.

Definition list_products (db : option Store)
    (brand category power_source : option string)
    (min_price max_price : option Q) (page page_size : Z) : result ProductPage :=
  match db with
  | None => Return (mkProductPage [] 0 None None)
  | Some st =>
      let query :=
        list_products_query brand category power_source min_price max_price in
      let total := count_documents (find product_holds query (product st)) in
      cursor <- Cursor.skip ((page - 1) * page_size)
                  (Cursor.find (Return (find product_holds query (product st)))) ;;
      items <- Cursor.list (Cursor.limit page_size cursor) ;;
      Return (mkProductPage (without_id items) total (Some page) (Some page_size))
  end.

(** The projection [{"_id": 0, "sku": 1, "title": 1, "price": 1, "media": 1}]. *)
Record Summary := mkSummary {
  summary_sku : string;
  summary_title : string;
  summary_price : PriceInfo;
  summary_media : option Media
}.

Definition summary (p : Product) : Summary :=
  mkSummary (sku p) (title p) (price p) (media p).

Record ProductDetail := mkProductDetail {
  detail : Product;
  accessory_items : option (list Summary);
  related_items : option (list Summary)
}.

(** [if p.get(key): p[key_items] = list(find({"sku": {"$in": p[key]}}, ...))] *)
Definition attach (st : Store) (skus : list string) : option (list Summary) :=
  match skus with
  | [] => None
  | _ :: _ =>
      Some (map summary (without_id (find product_holds [sku_in skus] (product st))))
  end.

Definition get_product (db : option Store) (sku : string) : result ProductDetail :=
  match db with
  | None => Raise StoreUnavailable
  | Some st =>
      match find_one product_holds [sku_is sku] (product st) with
      | None => Raise NotFound
      | Some d =>
          let p := fields d in
          Return (mkProductDetail p (attach st (accessories p))
                    (attach st (related_skus p)))
      end
  end.

Record ReviewPage := mkReviewPage {
  review_items : list (Stamped Review);
  review_total : Z
}.

Definition get_reviews (db : option Store) (sku : string) (page page_size : Z)
  : result ReviewPage :=
  match db with
  | None => Return (mkReviewPage [] 0)
  | Some st =>
      let query := [review_sku_is sku] in
      let total := count_documents (find review_holds query (review st)) in
      cursor <- Cursor.skip ((page - 1) * page_size)
                  (Cursor.sort sort_created_at_desc
                     (Cursor.find (Return (find review_holds query (review st))))) ;;
      items <- Cursor.list (Cursor.limit page_size cursor) ;;
      Return (mkReviewPage (without_id items) total)
  end.

Definition spares_for (db : option Store) (sku q : option string)
  : result (list SparePart) :=
  match db with
  | None => Return []
  | Some st =>
      let answer :=
        by_title <- regex_entry q spare_title_regex_i ;;
        let query := (entry_if sku compatible_skus_has ++ by_title)%list in
        Return (find spare_holds query (sparepart st)) in
      items <- Cursor.list (Cursor.find answer) ;;
      Return (without_id items)
  end.

(** *** Request and response models (pydantic)

    A request body is the record of the keys it gives, each already of the
    JSON type its field declares; validation checks presence, fills the
    defaults and applies the declared bounds and literals.  A failure is
    reported at the first offending field in declaration order. *)

Definition required {A : Type} (loc : string) (v : option A) : result A :=
  match v with
  | Some a => Return a
  | None => Raise (RequestValidationError loc)
  end.

Definition default {A : Type} (d : A) (v : option A) : A :=
  match v with
  | Some a => a
  | None => d
  end.

Definition check (loc : string) (ok : bool) : result unit :=
  if ok then Return tt else Raise (RequestValidationError loc).

Fixpoint collect {A B : Type} (f : A -> result B) (l : list A) : result (list B) :=
  match l with
  | [] => Return []
  | a :: l' =>
      b <- f a ;;
      bs <- collect f l' ;;
      Return (b :: bs)
  end.

(** An [HttpUrl] field: the validated value is the URL in normal form. *)
Definition url (loc : string) (u : string) : result string :=
  match HttpUrl u with
  | Some normal => Return normal
  | None => Raise (RequestValidationError loc)
  end.

Definition optional_url (loc : string) (v : option string) : result (option string) :=
  match v with
  | Some u => normal <- url loc u ;; Return (Some normal)
  | None => Return None
  end.

Record ReviewBody := mkReviewBody {
  in_review_sku : option string;
  in_review_title : option string;
  in_review_body : option string;
  in_rating : option Z;
  in_author : option string
}.

Definition validate_Review (b : ReviewBody) : result Review :=
  s <- required "sku" (in_review_sku b) ;;
  t <- required "title" (in_review_title b) ;;
  bd <- required "body" (in_review_body b) ;;
  r <- required "rating" (in_rating b) ;;
  _ <- check "rating" ((1 <=? r) && (r <=? 5)) ;;
  a <- required "author" (in_author b) ;;
  Return (mkReview s t bd r a).

Record PriceInfoBody := mkPriceInfoBody {
  in_inc_vat : option Q;
  in_ex_vat : option Q;
  in_currency : option string;
  in_finance_available : option bool
}.

Definition validate_PriceInfo (b : PriceInfoBody) : result PriceInfo :=
  i <- required "inc_vat" (in_inc_vat b) ;;
  _ <- check "inc_vat" (Qle_bool 0 i) ;;
  e <- required "ex_vat" (in_ex_vat b) ;;
  _ <- check "ex_vat" (Qle_bool 0 e) ;;
  let c := default "GBP" (in_currency b) in
  _ <- check "currency" (String.eqb c "GBP") ;;
  Return (mkPriceInfo i e c (default true (in_finance_available b))).

Record MediaBody := mkMediaBody {
  in_images : option (list string);
  in_video_url : option string;
  in_spin_360_url : option string
}.

Definition validate_Media (b : MediaBody) : result Media :=
  imgs <- collect (url "images") (default [] (in_images b)) ;;
  v <- optional_url "video_url" (in_video_url b) ;;
  s <- optional_url "spin_360_url" (in_spin_360_url b) ;;
  Return (mkMedia (Some imgs) v s).

Definition PowerSource : list string :=
  ["petrol"; "diesel"; "electric"; "battery"; "corded"; "air"; "manual"].

Record ProductBody := mkProductBody {
  in_sku : option string;
  in_title : option string;
  in_short_bullets : option (list string);
  in_description : option string;
  in_brand : option string;
  in_category : option string;
  in_power_source : option string;
  in_capacity : option string;
  in_size : option string;
  in_weight_kg : option Q;
  in_application : option (list string);
  in_price : option PriceInfoBody;
  in_media : option MediaBody;
  in_specs : option (list SpecItem);
  in_rating_avg : option Q;
  in_rating_count : option Z;
  in_accessories : option (list string);
  in_related_skus : option (list string);
  in_stock : option Z
}.

Definition validate_Product (b : ProductBody) : result Product :=
  s <- required "sku" (in_sku b) ;;
  t <- required "title" (in_title b) ;;
  br <- required "brand" (in_brand b) ;;
  c <- required "category" (in_category b) ;;
  _ <- check "power_source"
         match in_power_source b with
         | Some ps => in_list ps PowerSource
         | None => true
         end ;;
  _ <- check "weight_kg"
         match in_weight_kg b with
         | Some w => Qle_bool 0 w
         | None => true
         end ;;
  pb <- required "price" (in_price b) ;;
  p <- validate_PriceInfo pb ;;
  m <- match in_media b with
       | Some mb => validate_Media mb
       | None => Return (mkMedia (Some []) None None)
       end ;;
  Return (mkProduct s t (default [] (in_short_bullets b)) (in_description b)
            br c (in_power_source b) (in_capacity b) (in_size b)
            (in_weight_kg b) (in_application b) p (Some m)
            (default [] (in_specs b)) (default 0%Q (in_rating_avg b))
            (default 0 (in_rating_count b)) (default [] (in_accessories b))
            (default [] (in_related_skus b)) (default 10 (in_stock b))).

Record AddressBody := mkAddressBody {
  in_full_name : option string;
  in_line1 : option string;
  in_line2 : option string;
  in_city : option string;
  in_county : option string;
  in_postcode : option string;
  in_country : option string
}.

Definition validate_Address (b : AddressBody) : result Address :=
  n <- required "full_name" (in_full_name b) ;;
  l <- required "line1" (in_line1 b) ;;
  c <- required "city" (in_city b) ;;
  p <- required "postcode" (in_postcode b) ;;
  Return (mkAddress n l (in_line2 b) c (in_county b) p
            (default "UK" (in_country b))).

Record OrderItemBody := mkOrderItemBody {
  in_item_sku : option string;
  in_item_title : option string;
  in_qty : option Z;
  in_unit_price_inc_vat : option Q
}.

Definition validate_OrderItem (b : OrderItemBody) : result OrderItem :=
  s <- required "sku" (in_item_sku b) ;;
  t <- required "title" (in_item_title b) ;;
  q <- required "qty" (in_qty b) ;;
  _ <- check "qty" (1 <=? q) ;;
  u <- required "unit_price_inc_vat" (in_unit_price_inc_vat b) ;;
  Return (mkOrderItem s t q u).

Definition PaymentMethod : list string :=
  ["card"; "apple_pay"; "google_pay"; "cod"].

Record OrderBody := mkOrderBody {
  in_email : option string;
  in_phone : option string;
  in_shipping_address : option AddressBody;
  in_billing_address : option AddressBody;
  in_items : option (list OrderItemBody);
  in_total_inc_vat : option Q;
  in_payment_method : option string
}.

Definition validate_Order (b : OrderBody) : result Order :=
  e <- required "email" (in_email b) ;;
  sb <- required "shipping_address" (in_shipping_address b) ;;
  s <- validate_Address sb ;;
  bl <- match in_billing_address b with
        | Some bb => a <- validate_Address bb ;; Return (Some a)
        | None => Return None
        end ;;
  ib <- required "items" (in_items b) ;;
  its <- collect validate_OrderItem ib ;;
  t <- required "total_inc_vat" (in_total_inc_vat b) ;;
  let pm := default "card" (in_payment_method b) in
  _ <- check "payment_method" (in_list pm PaymentMethod) ;;
  Return (mkOrder e (in_phone b) s bl its t pm).

(** [(p.get("media", {}).get("images", [None]) or [None])[0]] *)
Definition first_image (p : Product) : option string :=
  let got :=
    match media p with
    | Some m =>
        match images m with
        | Some l => map Some l
        | None => [None]
        end
    | None => [None]
    end in
  hd None match got with
          | [] => [None]
          | _ :: _ => got
          end.

(** [SearchSuggestion(sku=p["sku"], ..., image=...)]: the one constrained
    field is [image], an optional [HttpUrl]; the record holds the URL in
    normal form. *)
Definition suggestion (p : Product) : result SearchSuggestion :=
  match first_image p with
  | Some u =>
      match HttpUrl u with
      | Some normal =>
          Return (mkSearchSuggestion (sku p) (title p) (brand p) (category p)
                    (inc_vat (price p)) (Some normal))
      | None => Raise (ValidationError "image")
      end
  | None =>
      Return (mkSearchSuggestion (sku p) (title p) (brand p) (category p)
                (inc_vat (price p)) None)
  end.

(** [q: str = Query(..., min_length=1, max_length=60)] is checked by the
    framework before the handler runs. *)
Definition search (db : option Store) (q : string) (limit : Z)
  : result (list SearchSuggestion) :=
  _ <- check "q" ((1 <=? String.length q)%nat && (String.length q <=? 60)%nat) ;;
  match db with
  | None => Return []
  | Some st =>
      let answer :=
        match regex_i q with
        | Some test =>
            Return (find product_holds [title_regex_i test] (product st))
        | None => Raise OperationFailure
        end in
      cursor <- Cursor.list (Cursor.limit limit (Cursor.find answer)) ;;
      collect suggestion (without_id cursor)
  end.

Definition default_limit : Z := 8.

(** Modelled from the spec: [create_document] of [database.py], which is not
    among the sources.  Per the spec a write stamps the record with a creation
    timestamp, persists it as a new record of its collection and yields a
    generated identifier. *)
Inductive new_document :=
| into_review (r : Review)
| into_order (o : Order).

Definition create_document (st : Store) (now : Z) (d : new_document) : Z * Store :=
  let id := next_id st in
  match d with
  | into_review r =>
      (id, mkStore (product st)
             (review st ++ [mkDocument id (mkStamped r now)])
             (sparepart st) (order st) (id + 1))
  | into_order o =>
      (id, mkStore (product st) (review st) (sparepart st)
             (order st ++ [mkDocument id (mkStamped o now)]) (id + 1))
  end.

(** The dictionaries the write handlers return. *)
Inductive json := Str (s : string) | Oid (id : Z).

Definition response := list (string * json).

(** [review_dict["sku"] = sku] *)
Definition with_sku (r : Review) (s : string) : Review :=
  mkReview s (review_title r) (review_body r) (rating r) (author r).

Definition post_review (db : option Store) (now : Z) (sku : string) (rv : Review)
  : result response * option Store :=
  match db with
  | None => (Raise StoreUnavailable, db)
  | Some st =>
      match find_one product_holds [sku_is sku] (product st) with
      | None => (Raise NotFound, db)
      | Some _ =>
          let review_dict := with_sku rv sku in
          let (_, st') := create_document st now (into_review review_dict) in
          (Return [("status", Str "ok")], Some st')
      end
  end.

Definition checkout (db : option Store) (now : Z) (o : Order)
  : result response * option Store :=
  match db with
  | None => (Raise StoreUnavailable, db)
  | Some st =>
      let (oid, st') := create_document st now (into_order o) in
      (Return [("status", Str "ok"); ("order_id", Oid oid)], Some st')
  end.

(** The routes [POST /api/products/{sku}/reviews] and [POST /api/checkout]:
    the body is validated against the handler's parameter model, and the
    handler runs on the validated value only. *)
Definition validated {A : Type} (v : result A) (db : option Store)
    (handler : A -> result response * option Store)
  : result response * option Store :=
  match v with
  | Return a => handler a
  | Raise e => (Raise e, db)
  end.

Definition post_review_route (db : option Store) (now : Z) (sku : string)
    (body : ReviewBody) : result response * option Store :=
  validated (validate_Review body) db (post_review db now sku).

Definition checkout_route (db : option Store) (now : Z) (body : OrderBody)
  : result response * option Store :=
  validated (validate_Order body) db (checkout db now).

(** The spec's names for the failures. *)
Definition InvalidInput {A : Type} (r : result A) : Prop :=
  exists loc, r = Raise (RequestValidationError loc).

(** ** The properties, in the spec's words *)

Definition products (st : Store) : list Product := without_id (product st).

Definition reviews (st : Store) : list (Stamped Review) := without_id (review st).

Definition spares (st : Store) : list SparePart := without_id (sparepart st).

(** A string filter is specified when it is given a non-empty value. *)
Definition given (f : option string) (v : string) : Prop :=
  f = Some v /\ v <> "".

(** A product satisfies the filters: exact match on each specified string
    filter, and the inc_vat price within each bound that is present. *)
Definition satisfies_filters (brand_f category_f power_source_f : option string)
    (min_price max_price : option Q) (p : Product) : Prop :=
  (forall v, given brand_f v -> brand p = v) /\
  (forall v, given category_f v -> category p = v) /\
  (forall v, given power_source_f v -> power_source p = Some v) /\
  (forall m, min_price = Some m -> (m <= inc_vat (price p))%Q) /\
  (forall m, max_price = Some m -> (inc_vat (price p) <= m)%Q).

(** Offset by [(page-1)*pageSize], capped at [pageSize]. *)
Definition paginate {A : Type} (page page_size : Z) (l : list A) : list A :=
  firstn (Z.to_nat page_size) (skipn (Z.to_nat ((page - 1) * page_size)) l).

Definition matching_products (st : Store)
    (brand_f category_f power_source_f : option string)
    (min_price max_price : option Q) : list Product :=
  without_id
    (find product_holds
       (list_products_query brand_f category_f power_source_f min_price max_price)
       (product st)).

(** The listed SKUs that resolve to a catalogue product. *)
Definition resolving (st : Store) (skus : list string) : list string :=
  filter (fun s => in_list s (map sku (products st))) skus.

(** What [get_product] attaches for a SKU list: nothing when the list is
    empty; otherwise one item for each catalogue product whose SKU is listed,
    holding the SKU, the title, the price and the media of that product, and
    no other item; as many items as listed SKUs resolve when SKUs are unique
    in the catalogue and in the list. *)
Definition projects (q : Product) (x : Summary) : Prop :=
  summary_sku x = sku q /\ summary_title x = title q /\
  summary_price x = price q /\ summary_media x = media q.

Definition enriched (st : Store) (skus : list string)
    (attached : option (list Summary)) : Prop :=
  match skus with
  | [] => attached = None
  | _ :: _ =>
      exists l,
        attached = Some l /\
        (forall x, In x l ->
                   exists q, In q (products st) /\ In (sku q) skus /\ projects q x) /\
        (forall q, In q (products st) -> In (sku q) skus ->
                   exists x, In x l /\ projects q x) /\
        (NoDup (map sku (products st)) -> NoDup skus ->
         List.length l = List.length (resolving st skus))
  end.

(** The products that satisfy the filters, in store order: the matching
    products the spec speaks of. *)
Definition satisfies_string (f : option string) (actual : option string) : bool :=
  match f with
  | Some v =>
      if String.eqb v "" then true
      else match actual with
           | Some a => String.eqb a v
           | None => false
           end
  | None => true
  end.

Definition satisfiesb (brand_f category_f power_source_f : option string)
    (min_price max_price : option Q) (p : Product) : bool :=
  satisfies_string brand_f (Some (brand p)) &&
  satisfies_string category_f (Some (category p)) &&
  satisfies_string power_source_f (power_source p) &&
  match min_price with
  | Some m => Qle_bool m (inc_vat (price p))
  | None => true
  end &&
  match max_price with
  | Some m => Qle_bool (inc_vat (price p)) m
  | None => true
  end.

Definition products_satisfying (st : Store)
    (brand_f category_f power_source_f : option string)
    (min_price max_price : option Q) : list Product :=
  filter (satisfiesb brand_f category_f power_source_f min_price max_price)
    (products st).

(** The order of [sort("created_at", -1)] on stored reviews. *)
Definition more_recent (a b : Document (Stamped Review)) : Prop :=
  created_at (fields b) <= created_at (fields a).

(** The reviews whose SKU is the given one. *)
Definition reviews_of (st : Store) (s : string) : list (Stamped Review) :=
  filter (fun x => String.eqb (review_sku (data x)) s) (reviews st).

(** Most recent first: each review is at least as recent as every later one. *)
Definition descending (l : list (Stamped Review)) : Prop :=
  StronglySorted (fun a b => created_at b <= created_at a) l.

Definition strictly_descending (l : list (Stamped Review)) : Prop :=
  StronglySorted (fun a b => created_at b < created_at a) l.

(** What the spec says of the page [get_reviews] returned: its items are the
    page [(page, page_size)] of the reviews of the SKU put in the given
    order, and its total counts the reviews of the SKU. *)
Definition reviews_page (order : list (Stamped Review) -> Prop) (st : Store)
    (s : string) (pg size_ : Z) (r : ReviewPage) : Prop :=
  exists ordered,
    Permutation ordered (reviews_of st s) /\
    order ordered /\
    review_items r = paginate pg size_ ordered /\
    review_total r = Z.of_nat (List.length (reviews_of st s)).

(** The claim, of one call: what it returns is that page, strictly ordered. *)
Definition reviews_page_as_claimed (st : Store) (s : string) (pg size_ : Z)
  : Prop :=
  forall r,
    get_reviews (Some st) s pg size_ = Return r ->
    reviews_page strictly_descending st s pg size_ r.


(** The title matches the query, as the store matches. *)
Definition matches (q t : string) : Prop :=
  exists test, regex_i q = Some test /\ test t = true.


(** What re-validating a URL is to pydantic: a normal form is accepted and
    kept. *)
Definition normal_form_is_kept : Prop :=
  forall u normal, HttpUrl u = Some normal -> HttpUrl normal = Some normal.

(** The first image of a product, absent when it has no images. *)
Definition first_image_or_absent (p : Product) : option string :=
  match media p with
  | Some m =>
      match images m with
      | Some (u :: _) => Some u
      | _ => None
      end
  | None => None
  end.


(** The suggestion record of a product. *)
Definition suggestion_of (p : Product) : SearchSuggestion :=
  mkSearchSuggestion (sku p) (title p) (brand p) (category p)
    (inc_vat (price p))
    match first_image_or_absent p with
    | Some u => HttpUrl u
    | None => None
    end.



Definition orders (st : Store) : list (Stamped Order) := without_id (order st).

(** Validation either yields the validated value or fails with InvalidInput. *)
Definition accepted_or_invalid {A : Type} (r : result A) : Prop :=
  (exists a, r = Return a) \/ InvalidInput r.

(** Bodies that satisfy every declared constraint: the required keys are
    present and the bounds and literals hold. *)
Definition present {A : Type} (v : option A) : Prop := v <> None.

Definition Review_ok (b : ReviewBody) : Prop :=
  present (in_review_sku b) /\ present (in_review_title b) /\
  present (in_review_body b) /\
  (exists r, in_rating b = Some r /\ 1 <= r <= 5) /\
  present (in_author b).

Definition Address_ok (b : AddressBody) : Prop :=
  present (in_full_name b) /\ present (in_line1 b) /\
  present (in_city b) /\ present (in_postcode b).

Definition OrderItem_ok (b : OrderItemBody) : Prop :=
  present (in_item_sku b) /\ present (in_item_title b) /\
  (exists n, in_qty b = Some n /\ 1 <= n) /\
  present (in_unit_price_inc_vat b).

Definition Order_ok (b : OrderBody) : Prop :=
  present (in_email b) /\
  (exists a, in_shipping_address b = Some a /\ Address_ok a) /\
  (forall a, in_billing_address b = Some a -> Address_ok a) /\
  (exists its, in_items b = Some its /\ Forall OrderItem_ok its) /\
  present (in_total_inc_vat b) /\
  (forall pm, in_payment_method b = Some pm -> In pm PaymentMethod).

(** A write is refused before the store is touched. *)
Definition refused (db : option Store) (outcome : result response * option Store)
  : Prop :=
  InvalidInput (fst outcome) /\ snd outcome = db.

(** ** Further notions *)

(** The items [list_products] returns for a page, none when it raises. *)
Definition listed_page (st : Store)
    (brand_f category_f power_source_f : option string)
    (min_price max_price : option Q) (pg size_ : Z) : list Product :=
  match list_products (Some st) brand_f category_f power_source_f
          min_price max_price pg size_ with
  | Return r => page_items r
  | _ => []
  end.

(** The writes a client can make, and the store after a series of them. *)
Inductive write :=
| POST_review (now : Z) (sku : string) (body : ReviewBody)
| POST_checkout (now : Z) (body : OrderBody).

Definition after_write (db : option Store) (w : write) : option Store :=
  match w with
  | POST_review now s body => snd (post_review_route db now s body)
  | POST_checkout now body => snd (checkout_route db now body)
  end.

Definition after_writes (db : option Store) (ws : list write) : option Store :=
  fold_left after_write ws db.

(** Every stored review has a rating from 1 to 5 and the SKU of a catalogue
    product; every stored order has quantities of at least 1 and a declared
    payment method. *)
Definition reviews_sound (st : Store) : Prop :=
  forall x, In x (reviews st) ->
            1 <= rating (data x) <= 5 /\
            exists p, In p (products st) /\ sku p = review_sku (data x).

Definition orders_sound (st : Store) : Prop :=
  forall x, In x (orders st) ->
            (forall it, In it (items (data x)) -> 1 <= qty it) /\
            In (payment_method (data x)) PaymentMethod.

(** The catalogue products whose title passes a test, in store order. *)
Definition title_matches (st : Store) (test : string -> bool) : list Product :=
  filter (fun p => test (title p)) (products st).

(** The first [limit] of them; all of them when [limit] is 0. *)
Definition first_matches (st : Store) (test : string -> bool) (limit : Z)
  : list Product :=
  if limit =? 0 then title_matches st test
  else firstn (Z.to_nat limit) (title_matches st test).

(** The outcome of a page request, by cases on the offset and the size:
    the refusal of [skip], then that of the encoder, then the page. *)
Definition page_outcome {A : Type} (offset size_ : Z) (page : result A)
  : result A :=
  if offset <? 0 then Raise (ValueError "skip must be >= 0")
  else if Cursor.int64 offset && Cursor.int64 (Z.abs size_) then page
       else Raise OverflowError.

(** [model_dump]: the dictionary of a validated model, every key given. *)
Definition model_dump_Review (r : Review) : ReviewBody :=
  mkReviewBody (Some (review_sku r)) (Some (review_title r))
    (Some (review_body r)) (Some (rating r)) (Some (author r)).

Definition model_dump_Address (a : Address) : AddressBody :=
  mkAddressBody (Some (full_name a)) (Some (line1 a)) (line2 a)
    (Some (city a)) (county a) (Some (postcode a)) (Some (country a)).

Definition model_dump_OrderItem (it : OrderItem) : OrderItemBody :=
  mkOrderItemBody (Some (item_sku it)) (Some (item_title it)) (Some (qty it))
    (Some (unit_price_inc_vat it)).

Definition model_dump_Order (o : Order) : OrderBody :=
  mkOrderBody (Some (email o)) (phone o)
    (Some (model_dump_Address (shipping_address o)))
    (option_map model_dump_Address (billing_address o))
    (Some (map model_dump_OrderItem (items o)))
    (Some (total_inc_vat o)) (Some (payment_method o)).

Definition model_dump_PriceInfo (p : PriceInfo) : PriceInfoBody :=
  mkPriceInfoBody (Some (inc_vat p)) (Some (ex_vat p)) (Some (currency p))
    (Some (finance_available p)).

Definition model_dump_Media (m : Media) : MediaBody :=
  mkMediaBody (images m) (video_url m) (spin_360_url m).

Definition model_dump_Product (p : Product) : ProductBody :=
  mkProductBody (Some (sku p)) (Some (title p)) (Some (short_bullets p))
    (description p) (Some (brand p)) (Some (category p)) (power_source p)
    (capacity p) (size p) (weight_kg p) (application p)
    (Some (model_dump_PriceInfo (price p)))
    (option_map model_dump_Media (media p)) (Some (specs p))
    (Some (rating_avg p)) (Some (rating_count p)) (Some (accessories p))
    (Some (related_skus p)) (Some (stock p)).

(** * Proofs *)

Unset Implicit Arguments.

(** ** Lists, cursors and filter documents *)

Lemma in_list_In (s : string) (l : list string) :
  in_list s l = true <-> In s l.
Proof.
  unfold in_list. rewrite existsb_exists. split.
  - intros [x [Hx Heq]]. apply String.eqb_eq in Heq. now subst.
  - intros H. exists s. split; [assumption | apply String.eqb_refl].
Qed.

Lemma in_without_id {A : Type} (a : A) (c : list (Document A)) :
  In a (without_id c) <-> exists d, In d c /\ fields d = a.
Proof.
  unfold without_id. rewrite in_map_iff. split; intros [d [H1 H2]]; exists d; auto.
Qed.

Lemma in_find {A C : Type} (holds : A -> C -> bool) (query : list C)
    (c : list (Document A)) (a : A) :
  In a (without_id (find holds query c)) <->
  In a (without_id c) /\ forallb (holds a) query = true.
Proof.
  rewrite !in_without_id. unfold find. split.
  - intros [d [Hd Heq]]. apply filter_In in Hd. destruct Hd as [Hd Hq].
    subst a. split; [exists d; auto | assumption].
  - intros [[d [Hd Heq]] Hq]. exists d. split; [| assumption].
    apply filter_In. subst a. auto.
Qed.

Lemma without_id_find {A C : Type} (holds : A -> C -> bool) (query : list C)
    (c : list (Document A)) :
  without_id (find holds query c) =
  filter (fun a => forallb (holds a) query) (without_id c).
Proof.
  unfold without_id, find. induction c as [| d c IH]; simpl.
  - reflexivity.
  - destruct (forallb (holds (fields d)) query); simpl; now rewrite IH.
Qed.

Lemma in_firstn {A : Type} (n : nat) (l : list A) (a : A) :
  In a (firstn n l) -> In a l.
Proof.
  intros H. rewrite <- (firstn_skipn n l). apply in_or_app. now left.
Qed.

Lemma in_skipn {A : Type} (n : nat) (l : list A) (a : A) :
  In a (skipn n l) -> In a l.
Proof.
  intros H. rewrite <- (firstn_skipn n l). apply in_or_app. now right.
Qed.

Lemma in_window {A : Type} (s l : Z) (docs : list A) (a : A) :
  In a (Cursor.window s l docs) -> In a docs.
Proof.
  unfold Cursor.window. destruct (l =? 0); [| destruct (0 <? l)]; intros H.
  - now apply in_skipn in H.
  - now apply in_firstn, in_skipn in H.
  - now apply in_firstn, in_skipn in H.
Qed.

Lemma window_map {A B : Type} (f : A -> B) (s l : Z) (docs : list A) :
  Cursor.window s l (map f docs) = map f (Cursor.window s l docs).
Proof.
  unfold Cursor.window. rewrite skipn_map.
  destruct (l =? 0); [reflexivity |]. destruct (0 <? l); apply firstn_map.
Qed.

Lemma window_paginate {A : Type} (pg size_ : Z) (docs : list A) :
  0 < size_ ->
  Cursor.window ((pg - 1) * size_) size_ docs = paginate pg size_ docs.
Proof.
  intros Hs. unfold Cursor.window, paginate.
  destruct (size_ =? 0) eqn:E; [apply Z.eqb_eq in E; lia |].
  destruct (0 <? size_) eqn:E'; [reflexivity | apply Z.ltb_ge in E'; lia].
Qed.

Lemma window_all {A : Type} (docs : list A) : Cursor.window 0 0 docs = docs.
Proof. reflexivity. Qed.

(** What listing a cursor gives once [skip] and [limit] are set: the
    refusal of [skip] first, then that of the encoder, then the answer of
    the store. *)
Lemma list_skip_limit {A B : Type} (c : Cursor.t A) (n l : Z)
    (k : list A -> result B) :
  (cursor <- Cursor.skip n c ;;
   items <- Cursor.list (Cursor.limit l cursor) ;;
   k items) =
  if n <? 0 then Raise (ValueError "skip must be >= 0")
  else if Cursor.int64 n && Cursor.int64 (Z.abs l) then
         docs <- Cursor.answer c ;; k (Cursor.window n l docs)
       else Raise OverflowError.
Proof.
  unfold Cursor.skip. destruct (n <? 0); [reflexivity |].
  cbn [bind]. unfold Cursor.list, Cursor.limit. cbn [Cursor.skipped Cursor.limited
    Cursor.answer].
  destruct (Cursor.int64 n && Cursor.int64 (Z.abs l)); [| reflexivity].
  destruct (Cursor.answer c); reflexivity.
Qed.

Lemma int64_iff (n : Z) : Cursor.int64 n = true <-> n <= Cursor.max_int64.
Proof. unfold Cursor.int64. apply Z.leb_le. Qed.

Lemma page_outcome_returns {A : Type} (offset size_ : Z) (page : result A) :
  0 <= offset <= Cursor.max_int64 -> Z.abs size_ <= Cursor.max_int64 ->
  page_outcome offset size_ page = page.
Proof.
  intros Ho Hs. unfold page_outcome.
  destruct (offset <? 0) eqn:E; [apply Z.ltb_lt in E; lia |].
  apply int64_iff in Hs. destruct Ho as [_ Ho]. apply int64_iff in Ho.
  now rewrite Ho, Hs.
Qed.

Lemma page_outcome_return_inv {A : Type} (offset size_ : Z) (page : result A)
    (a : A) :
  page_outcome offset size_ page = Return a ->
  page = Return a /\ 0 <= offset <= Cursor.max_int64 /\
  Z.abs size_ <= Cursor.max_int64.
Proof.
  unfold page_outcome. destruct (offset <? 0) eqn:E; [discriminate |].
  apply Z.ltb_ge in E.
  destruct (Cursor.int64 offset) eqn:Eo; [| discriminate].
  destruct (Cursor.int64 (Z.abs size_)) eqn:Es; [| discriminate].
  apply int64_iff in Eo, Es. simpl. auto.
Qed.

(** ** Product listing *)

Lemma entry_if_given {C : Type} (f : option string) (entry : string -> C)
    (holds : C -> bool) :
  forallb holds (entry_if f entry) = true <->
  (forall v, given f v -> holds (entry v) = true).
Proof.
  unfold entry_if, given. destruct f as [s |]; simpl.
  - destruct (String.eqb s "") eqn:E; simpl.
    + apply String.eqb_eq in E. split; [| reflexivity].
      intros _ v [Hv Hne]. injection Hv as <-. contradiction.
    + apply String.eqb_neq in E. rewrite andb_true_r. split.
      * intros H v [Hv _]. now injection Hv as <-.
      * intros H. apply H. auto.
  - split; [| reflexivity]. intros _ v [Hv _]. discriminate.
Qed.

Lemma price_entry_holds (min_price max_price : option Q) (p : Product) :
  forallb (product_holds p)
    match min_price, max_price with
    | None, None => []
    | _, _ => [price_inc_vat_between min_price max_price]
    end = true <->
  (forall m, min_price = Some m -> (m <= inc_vat (price p))%Q) /\
  (forall m, max_price = Some m -> (inc_vat (price p) <= m)%Q).
Proof.
  destruct min_price as [lo |], max_price as [hi |]; simpl;
    rewrite ?andb_true_r, ?andb_true_iff, ?Qle_bool_iff.
  - split.
    + intros [H1 H2]. split; intros m Hm; now injection Hm as <-.
    + intros [H1 H2]. auto.
  - split.
    + intros H1. split; intros m Hm; [now injection Hm as <- | discriminate].
    + intros [H1 _]. auto.
  - split.
    + intros H1. split; intros m Hm; [discriminate | now injection Hm as <-].
    + intros [_ H2]. auto.
  - split; [| reflexivity]. intros _. split; intros m Hm; discriminate.
Qed.

Lemma query_holds_iff (brand_f category_f power_source_f : option string)
    (min_price max_price : option Q) (p : Product) :
  forallb (product_holds p)
    (list_products_query brand_f category_f power_source_f min_price max_price)
  = true <->
  satisfies_filters brand_f category_f power_source_f min_price max_price p.
Proof.
  unfold list_products_query, satisfies_filters.
  rewrite !forallb_app, !andb_true_iff, !entry_if_given, price_entry_holds.
  simpl.
  assert (Hps : forall v, (match power_source p with
                           | Some ps => String.eqb ps v
                           | None => false
                           end = true) <-> power_source p = Some v).
  { intros v. destruct (power_source p) as [ps |].
    - rewrite String.eqb_eq. split; [now intros -> | now intros [= ->]].
    - split; discriminate. }
  split.
  - intros (Hb & Hc & Hs & Hmin & Hmax). repeat split; auto.
    + intros v Hv. now apply String.eqb_eq, Hb.
    + intros v Hv. now apply String.eqb_eq, Hc.
    + intros v Hv. now apply Hps, Hs.
  - intros (Hb & Hc & Hs & Hmin & Hmax). repeat split; auto.
    + intros v Hv. now apply String.eqb_eq, Hb.
    + intros v Hv. now apply String.eqb_eq, Hc.
    + intros v Hv. now apply Hps, Hs.
Qed.

Lemma in_matching_products (st : Store)
    (brand_f category_f power_source_f : option string)
    (min_price max_price : option Q) (p : Product) :
  In p (matching_products st brand_f category_f power_source_f min_price max_price)
  <->
  In p (products st) /\
  satisfies_filters brand_f category_f power_source_f min_price max_price p.
Proof.
  unfold matching_products, products. now rewrite in_find, query_holds_iff.
Qed.

Lemma satisfies_string_iff (f : option string) (actual : option string) :
  satisfies_string f actual = true <-> (forall v, given f v -> actual = Some v).
Proof.
  unfold satisfies_string, given. destruct f as [s |].
  - destruct (String.eqb s "") eqn:E.
    + apply String.eqb_eq in E. split; [| reflexivity].
      intros _ v [Hv Hne]. injection Hv as <-. contradiction.
    + apply String.eqb_neq in E. destruct actual as [a |].
      * rewrite String.eqb_eq. split.
        -- intros -> v [Hv _]. now injection Hv as <-.
        -- intros H. specialize (H s (conj eq_refl E)). now injection H.
      * split; [discriminate |]. intros H.
        specialize (H s (conj eq_refl E)). discriminate.
  - split; [| reflexivity]. intros _ v [Hv _]. discriminate.
Qed.

Lemma satisfiesb_iff (brand_f category_f power_source_f : option string)
    (min_price max_price : option Q) (p : Product) :
  satisfiesb brand_f category_f power_source_f min_price max_price p = true <->
  satisfies_filters brand_f category_f power_source_f min_price max_price p.
Proof.
  unfold satisfiesb, satisfies_filters.
  rewrite !andb_true_iff, !satisfies_string_iff.
  assert (Hsome : forall (f : option string) (x : string),
             (forall v, given f v -> Some x = Some v) <->
             (forall v, given f v -> x = v)).
  { intros f x. split; intros H v Hv; specialize (H v Hv); congruence. }
  rewrite !Hsome.
  assert (Hlo : match min_price with
                | Some m => Qle_bool m (inc_vat (price p))
                | None => true
                end = true <->
                (forall m, min_price = Some m -> (m <= inc_vat (price p))%Q)).
  { destruct min_price as [m |].
    - rewrite Qle_bool_iff. split; [intros H m' [= <-]; exact H | auto].
    - split; [discriminate | reflexivity]. }
  assert (Hhi : match max_price with
                | Some m => Qle_bool (inc_vat (price p)) m
                | None => true
                end = true <->
                (forall m, max_price = Some m -> (inc_vat (price p) <= m)%Q)).
  { destruct max_price as [m |].
    - rewrite Qle_bool_iff. split; [intros H m' [= <-]; exact H | auto].
    - split; [discriminate | reflexivity]. }
  rewrite Hlo, Hhi. tauto.
Qed.

(** The filter document selects the products that satisfy the filters. *)
Lemma matching_products_satisfying (st : Store)
    (brand_f category_f power_source_f : option string)
    (min_price max_price : option Q) :
  matching_products st brand_f category_f power_source_f min_price max_price =
  products_satisfying st brand_f category_f power_source_f min_price max_price.
Proof.
  unfold matching_products, products_satisfying, products.
  rewrite without_id_find. apply filter_ext. intros p.
  apply eq_true_iff_eq. now rewrite query_holds_iff, satisfiesb_iff.
Qed.

(** What [list_products] does on an available store. *)
Lemma list_products_outcome (st : Store)
    (brand_f category_f power_source_f : option string)
    (min_price max_price : option Q) (pg size_ : Z) :
  list_products (Some st) brand_f category_f power_source_f min_price max_price
    pg size_ =
  page_outcome ((pg - 1) * size_) size_
    (Return (mkProductPage
               (Cursor.window ((pg - 1) * size_) size_
                  (matching_products st brand_f category_f power_source_f
                     min_price max_price))
               (Z.of_nat (List.length
                  (matching_products st brand_f category_f power_source_f
                     min_price max_price)))
               (Some pg) (Some size_))).
Proof.
  unfold list_products, page_outcome. cbv zeta. rewrite list_skip_limit.
  cbn [Cursor.find Cursor.answer bind].
  unfold matching_products, count_documents, without_id.
  now rewrite window_map, length_map.
Qed.

Lemma list_products_available (st : Store)
    (brand_f category_f power_source_f : option string)
    (min_price max_price : option Q) (pg size_ : Z) :
  1 <= pg -> 0 < size_ <= Cursor.max_int64 ->
  (pg - 1) * size_ <= Cursor.max_int64 ->
  list_products (Some st) brand_f category_f power_source_f min_price max_price
    pg size_ =
  Return (mkProductPage
            (paginate pg size_
               (matching_products st brand_f category_f power_source_f
                  min_price max_price))
            (Z.of_nat (List.length
               (matching_products st brand_f category_f power_source_f
                  min_price max_price)))
            (Some pg) (Some size_)).
Proof.
  intros Hp Hs Ho. rewrite list_products_outcome.
  rewrite page_outcome_returns by nia.
  now rewrite window_paginate by lia.
Qed.

(** On an available store, a page that is returned for [pg >= 1] and a
    positive size is the page of the matches. *)
Lemma list_products_returned (st : Store)
    (brand_f category_f power_source_f : option string)
    (min_price max_price : option Q) (pg size_ : Z) (r : ProductPage) :
  0 < size_ ->
  list_products (Some st) brand_f category_f power_source_f min_price max_price
    pg size_ = Return r ->
  r = mkProductPage
        (paginate pg size_
           (matching_products st brand_f category_f power_source_f
              min_price max_price))
        (Z.of_nat (List.length
           (matching_products st brand_f category_f power_source_f
              min_price max_price)))
        (Some pg) (Some size_).
Proof.
  intros Hs Hcall. rewrite list_products_outcome in Hcall.
  apply page_outcome_return_inv in Hcall. destruct Hcall as [Hr _].
  injection Hr as <-. now rewrite window_paginate by lia.
Qed.

Lemma on_some_page {A : Type} (l : list A) (a : A) (page_size : Z) :
  In a l -> 0 < page_size ->
  exists page, 1 <= page /\ In a (paginate page page_size l) /\
               (page - 1) * page_size < Z.of_nat (List.length l).
Proof.
  intros Hin Hs. apply In_nth_error in Hin. destruct Hin as [i Hi].
  assert (Hlen : (i < List.length l)%nat)
    by (apply nth_error_Some; congruence).
  set (n := Z.to_nat page_size).
  assert (Hn : (n <> 0)%nat) by (unfold n; lia).
  assert (Hdm : i = (n * (i / n) + i mod n)%nat) by (apply Nat.div_mod_eq).
  exists (Z.of_nat (i / n) + 1). split; [lia |]. split.
  - unfold paginate. apply nth_error_In with (n := (i mod n)%nat).
    rewrite nth_error_firstn.
    assert (Hlt : (i mod n < n)%nat) by (apply Nat.mod_upper_bound; assumption).
    apply Nat.ltb_lt in Hlt. fold n. rewrite Hlt.
    rewrite nth_error_skipn.
    replace (Z.to_nat ((Z.of_nat (i / n) + 1 - 1) * page_size) + i mod n)%nat
      with i; [assumption |].
    replace (Z.of_nat (i / n) + 1 - 1) with (Z.of_nat (i / n)) by lia.
    rewrite Z2Nat.inj_mul, Nat2Z.id by lia. fold n. lia.
  - replace (Z.of_nat (i / n) + 1 - 1) with (Z.of_nat (i / n)) by lia.
    replace page_size with (Z.of_nat n) by (unfold n; lia).
    rewrite <- Nat2Z.inj_mul. apply Nat2Z.inj_lt. lia.
Qed.

Lemma length_matching_products (st : Store)
    (brand_f category_f power_source_f : option string)
    (min_price max_price : option Q) :
  (List.length (matching_products st brand_f category_f power_source_f
                  min_price max_price) <= List.length (products st))%nat.
Proof.
  unfold matching_products, products. rewrite without_id_find.
  apply filter_length_le.
Qed.

(** C1.  Every product that [list_products] returns satisfies each specified
    filter (brand, category and power source by exact match, the inc_vat
    price within each bound that is present), and a filter that is absent
    constrains nothing: every catalogue product that satisfies the specified
    filters is returned on some page, for every positive page size that fits
    the 8 bytes of an integer of the store, as the number of products
    does. *)
Theorem list_products_filters (db : option Store)
    (brand_f category_f power_source_f : option string)
    (min_price max_price : option Q) :
  (forall page page_size r p,
      list_products db brand_f category_f power_source_f min_price max_price
        page page_size = Return r ->
      In p (page_items r) ->
      satisfies_filters brand_f category_f power_source_f min_price max_price p)
  /\
  (forall st p page_size,
      db = Some st ->
      In p (products st) ->
      satisfies_filters brand_f category_f power_source_f min_price max_price p ->
      0 < page_size <= Cursor.max_int64 ->
      Z.of_nat (List.length (products st)) <= Cursor.max_int64 ->
      exists page r,
        1 <= page /\
        list_products db brand_f category_f power_source_f min_price max_price
          page page_size = Return r /\
        In p (page_items r)).
Proof.
  split.
  - intros page page_size r p Hcall Hin. destruct db as [st |].
    + rewrite list_products_outcome in Hcall.
      apply page_outcome_return_inv in Hcall. destruct Hcall as [Hr _].
      injection Hr as <-. cbn [page_items] in Hin.
      apply in_window in Hin. now apply in_matching_products in Hin.
    + injection Hcall as <-. contradiction.
  - intros st p page_size -> Hin Hsat Hs Hsize.
    assert (Hm : In p (matching_products st brand_f category_f power_source_f
                         min_price max_price))
      by (apply in_matching_products; auto).
    destruct (on_some_page _ _ _ Hm (proj1 Hs)) as [page (Hp & Hpage & Hoff)].
    pose proof (length_matching_products st brand_f category_f power_source_f
                  min_price max_price) as Hle.
    exists page. eexists. split; [assumption |]. split.
    + apply list_products_available; [assumption | assumption | lia].
    + exact Hpage.
Qed.

Lemma list_products_filters_witness :
  satisfies_filters None None None (Some 500%Q) (Some 600%Q) HY2000i /\
  exists page r,
    1 <= page /\
    list_products (Some seeded) None None None (Some 500%Q) (Some 600%Q)
      page 12 = Return r /\
    In HY2000i (page_items r).
Proof.
  pose proof (list_products_filters (Some seeded) None None None
                (Some 500%Q) (Some 600%Q)) as [Hsound Hcomplete].
  assert (Hsat : satisfies_filters None None None (Some 500%Q) (Some 600%Q) HY2000i).
  { apply (Hsound 1 12
             (mkProductPage [HY2000i] 1 (Some 1) (Some 12)) HY2000i).
    - reflexivity.
    - simpl. left. reflexivity. }
  split; [exact Hsat |].
  apply (Hcomplete seeded HY2000i 12).
  - reflexivity.
  - simpl. left. reflexivity.
  - exact Hsat.
  - unfold Cursor.max_int64. lia.
  - unfold Cursor.max_int64. simpl. lia.
Defined.

(** C2.  With [page >= 1] and [page_size > 0], a page that [list_products]
    returns holds the products that satisfy the filters, in store order,
    offset by [(page-1)*page_size] and capped at [page_size]; the total is
    the number of all of them; [page] and [page_size] are echoed; a page
    beyond them is empty with the same total.  The page is returned whenever
    the size and the offset fit the 8 bytes of an integer of the store. *)
Theorem list_products_pagination (st : Store)
    (brand_f category_f power_source_f : option string)
    (min_price max_price : option Q) (pg size_ : Z) :
  1 <= pg -> 0 < size_ ->
  (forall r,
      list_products (Some st) brand_f category_f power_source_f
        min_price max_price pg size_ = Return r ->
      page_items r =
        paginate pg size_
          (products_satisfying st brand_f category_f power_source_f
             min_price max_price) /\
      total r =
        Z.of_nat (List.length
          (products_satisfying st brand_f category_f power_source_f
             min_price max_price)) /\
      page r = Some pg /\
      page_size r = Some size_ /\
      (total r <= (pg - 1) * size_ -> page_items r = [])) /\
  (size_ <= Cursor.max_int64 -> (pg - 1) * size_ <= Cursor.max_int64 ->
   exists r,
     list_products (Some st) brand_f category_f power_source_f
       min_price max_price pg size_ = Return r).
Proof.
  intros Hp Hs. split.
  - intros r Hcall. apply list_products_returned in Hcall; [| assumption].
    rewrite matching_products_satisfying in Hcall. subst r.
    cbn [page_items total page page_size]. repeat split.
    intros Hbeyond. unfold paginate.
    rewrite skipn_all2; [apply firstn_nil | lia].
  - intros Hsize Hoff. eexists.
    apply list_products_available; [assumption | lia | assumption].
Qed.

Lemma list_products_pagination_witness :
  (forall r,
      list_products (Some seeded) None None None None None 3 1 = Return r ->
      page_items r = paginate 3 1 (products_satisfying seeded None None None None None) /\
      total r =
        Z.of_nat (List.length (products_satisfying seeded None None None None None)) /\
      page r = Some 3 /\
      page_size r = Some 1 /\
      (total r <= (3 - 1) * 1 -> page_items r = [])) /\
  (exists r,
     list_products (Some seeded) None None None None None 3 1 = Return r).
Proof.
  destruct (list_products_pagination seeded None None None None None 3 1)
    as [Hpage Hreturns]; [lia | lia |].
  split; [exact Hpage |].
  apply Hreturns; unfold Cursor.max_int64; lia.
Defined.

(** The spec's pagination fixture: two products, one per page, a third page
    empty, the total 2 throughout. *)
Example two_products_one_per_page :
  list_products (Some seeded) None None None None None 1 1 =
    Return (mkProductPage [HY2000i] 2 (Some 1) (Some 1)) /\
  list_products (Some seeded) None None None None None 2 1 =
    Return (mkProductPage [JCB_18V_IMPACT] 2 (Some 2) (Some 1)) /\
  list_products (Some seeded) None None None None None 3 1 =
    Return (mkProductPage [] 2 (Some 3) (Some 1)).
Proof. repeat split. Qed.

(** The spec's price fixture: bounds 500 and 600 keep a product priced 599.99
    and drop one priced 499.00. *)
Example price_bounds_fixture :
  list_products
    (Some (mkStore [mkDocument 1 HY2000i;
                    mkDocument 2 (plain_product "P" "Petrol Generator" 499 [])]
             [] [] [] 3))
    None None None (Some 500%Q) (Some 600%Q) 1 12 =
  Return (mkProductPage [HY2000i] 1 (Some 1) (Some 12)).
Proof. reflexivity. Qed.

(** A size of 2^63 is refused by the encoder of the driver. *)
Example page_size_of_nine_bytes :
  list_products (Some seeded) None None None None None 1 9223372036854775808 =
  Raise OverflowError.
Proof. reflexivity. Qed.


(** ** Product detail *)

Lemma find_one_none {A C : Type} (holds : A -> C -> bool) (query : list C)
    (c : list (Document A)) :
  find_one holds query c = None <->
  forall a, In a (without_id c) -> forallb (holds a) query = false.
Proof.
  unfold find_one, find. induction c as [| d c IH]; simpl.
  - split; [intros _ a [] | reflexivity].
  - destruct (forallb (holds (fields d)) query) eqn:E; simpl.
    + split; [discriminate |]. intros H.
      rewrite (H (fields d)) in E by (left; reflexivity). discriminate.
    + rewrite IH. split.
      * intros H a [<- | Ha]; [assumption | now apply H].
      * intros H a Ha. apply H. now right.
Qed.

Lemma find_one_some {A C : Type} (holds : A -> C -> bool) (query : list C)
    (c : list (Document A)) (d : Document A) :
  find_one holds query c = Some d ->
  In (fields d) (without_id c) /\ forallb (holds (fields d)) query = true.
Proof.
  unfold find_one. intros H.
  assert (Hin : In d (find holds query c)).
  { destruct (find holds query c); [discriminate |].
    injection H as ->. now left. }
  apply filter_In in Hin. destruct Hin as [Hin Hq]. split; [| assumption].
  apply in_without_id. exists d. auto.
Qed.

Lemma NoDup_map_filter {A B : Type} (f : A -> B) (g : A -> bool) (l : list A) :
  NoDup (map f l) -> NoDup (map f (filter g l)).
Proof.
  induction l as [| a l IH]; simpl; [auto |].
  intros H. inversion H as [| ? ? Hnotin Hnd]; subst.
  destruct (g a); simpl; [| auto].
  constructor; [| auto].
  intros Hin. apply Hnotin. apply in_map_iff in Hin.
  destruct Hin as [x [Hx Hin]]. apply filter_In in Hin.
  apply in_map_iff. exists x. tauto.
Qed.

Lemma NoDup_filter {A : Type} (g : A -> bool) (l : list A) :
  NoDup l -> NoDup (filter g l).
Proof.
  induction 1 as [| a l Hnotin Hnd IH]; simpl; [constructor |].
  destruct (g a); [| assumption].
  constructor; [| assumption].
  intros Hin. apply filter_In in Hin. tauto.
Qed.

Lemma holds_sku_in (p : Product) (skus : list string) :
  forallb (product_holds p) [sku_in skus] = true <-> In (sku p) skus.
Proof.
  cbn [forallb product_holds]. rewrite andb_true_r. apply in_list_In.
Qed.

Lemma holds_sku_is (p : Product) (s : string) :
  forallb (product_holds p) [sku_is s] = true <-> sku p = s.
Proof.
  cbn [forallb product_holds]. rewrite andb_true_r. apply String.eqb_eq.
Qed.

Lemma summary_projects (q : Product) : projects q (summary q).
Proof. unfold projects, summary. cbn. auto. Qed.

Lemma attach_enriched (st : Store) (skus : list string) :
  enriched st skus (attach st skus).
Proof.
  unfold enriched, attach. destruct skus as [| s0 skus']; [reflexivity |].
  set (skus := s0 :: skus').
  eexists. split; [reflexivity |]. split; [| split].
  - intros x Hx. apply in_map_iff in Hx. destruct Hx as [q [Hx Hq]].
    apply in_find in Hq. destruct Hq as [Hq Hholds].
    apply holds_sku_in in Hholds. exists q. subst x.
    auto using summary_projects.
  - intros q Hq Hs. exists (summary q). split; [| apply summary_projects].
    apply in_map. apply in_find. split; [assumption |]. now apply holds_sku_in.
  - intros Hst Hskus. rewrite length_map, without_id_find. fold (products st).
    rewrite <- (length_map sku).
    apply Permutation_length, NoDup_Permutation.
    + now apply NoDup_map_filter.
    + now apply NoDup_filter.
    + intros s. unfold resolving. rewrite filter_In, in_list_In, in_map_iff.
      split.
      * intros [q [Hs Hq]]. apply filter_In in Hq. destruct Hq as [Hq Hh].
        apply holds_sku_in in Hh.
        subst s. split; [assumption |]. apply in_map. assumption.
      * intros [Hs Hin]. apply in_map_iff in Hin. destruct Hin as [q [Hq Hin]].
        exists q. split; [assumption |]. apply filter_In. split; [assumption |].
        apply holds_sku_in. now rewrite Hq.
Qed.

(** C3.  [get_product] fails with NotFound when no product has the SKU;
    otherwise it returns a catalogue product with that SKU, and for a
    non-empty accessory (related) SKU list attaches a list in which every
    item holds the SKU, the title, the price and the media of a catalogue
    product whose SKU is listed, and every such product has its item; so
    a listed SKU that resolves to nothing contributes nothing, and the list
    has as many items as listed SKUs resolve when SKUs are unique. *)
Theorem get_product_spec (st : Store) (s : string) :
  ((forall p, In p (products st) -> sku p <> s) ->
   get_product (Some st) s = Raise NotFound) /\
  ((exists p, In p (products st) /\ sku p = s) ->
   exists r,
     get_product (Some st) s = Return r /\
     In (detail r) (products st) /\
     sku (detail r) = s /\
     enriched st (accessories (detail r)) (accessory_items r) /\
     enriched st (related_skus (detail r)) (related_items r)).
Proof.
  unfold get_product. split.
  - intros Hnone.
    assert (H : find_one product_holds [sku_is s] (product st) = None).
    { apply find_one_none. intros a Ha.
      destruct (forallb (product_holds a) [sku_is s]) eqn:E; [| reflexivity].
      apply holds_sku_is in E. now apply Hnone in Ha. }
    now rewrite H.
  - intros [p [Hp Hs]].
    destruct (find_one product_holds [sku_is s] (product st)) as [d |] eqn:E.
    + apply find_one_some in E. destruct E as [Hin Hholds].
      apply holds_sku_is in Hholds.
      eexists. split; [reflexivity |]. simpl.
      repeat split; auto using attach_enriched.
    + exfalso. rewrite find_one_none in E. specialize (E p Hp).
      apply holds_sku_is in Hs. congruence.
Qed.

Lemma get_product_spec_witness :
  get_product (Some fixture) "ZZ" = Raise NotFound /\
  exists r,
    get_product (Some fixture) "P" = Return r /\
    In (detail r) (products fixture) /\
    sku (detail r) = "P" /\
    enriched fixture (accessories (detail r)) (accessory_items r) /\
    enriched fixture (related_skus (detail r)) (related_items r).
Proof.
  destruct (get_product_spec fixture "ZZ") as [Hnone _].
  destruct (get_product_spec fixture "P") as [_ Hsome].
  split.
  - apply Hnone. intros p Hp. simpl in Hp.
    destruct Hp as [<- | [<- | []]]; discriminate.
  - apply Hsome. exists (plain_product "P" "Petrol Generator" 499 ["A"; "B"]).
    split; [simpl; auto | reflexivity].
Defined.

(** The spec's fixture: accessories [A] and [B] with only [A] in the
    catalogue give one accessory item, which holds the SKU, the title, the
    price and the media of [A]; an empty related list attaches nothing. *)
Example accessories_A_B_only_A_exists :
  get_product (Some fixture) "P" =
  Return (mkProductDetail (plain_product "P" "Petrol Generator" 499 ["A"; "B"])
            (Some [mkSummary "A" "Cable" (mkPriceInfo 10 10 "GBP" true) None])
            None).
Proof. reflexivity. Qed.

(** ** Reviews *)

Lemma insert_desc_perm (d : Document (Stamped Review))
    (l : list (Document (Stamped Review))) :
  Permutation (insert_desc d l) (d :: l).
Proof.
  induction l as [| e l IH]; simpl; [reflexivity |].
  destruct (created_at (fields e) <=? created_at (fields d)); [reflexivity |].
  rewrite IH. apply perm_swap.
Qed.

Lemma sort_created_at_desc_perm (l : list (Document (Stamped Review))) :
  Permutation (sort_created_at_desc l) l.
Proof.
  induction l as [| d l IH]; simpl; [reflexivity |].
  rewrite insert_desc_perm. now constructor.
Qed.

Lemma insert_desc_sorted (d : Document (Stamped Review))
    (l : list (Document (Stamped Review))) :
  StronglySorted more_recent l -> StronglySorted more_recent (insert_desc d l).
Proof.
  induction 1 as [| e l Hl IH He]; simpl.
  - repeat constructor.
  - destruct (created_at (fields e) <=? created_at (fields d)) eqn:E.
    + apply Z.leb_le in E. constructor; [now constructor |].
      constructor; [exact E |].
      rewrite Forall_forall in He |- *. intros x Hx.
      specialize (He x Hx). unfold more_recent in *. lia.
    + apply Z.leb_gt in E. constructor; [exact IH |].
      rewrite Forall_forall in He |- *. intros x Hx.
      apply (Permutation_in _ (insert_desc_perm d l)) in Hx.
      destruct Hx as [<- | Hx]; [unfold more_recent; lia | now apply He].
Qed.

Lemma sort_created_at_desc_sorted (l : list (Document (Stamped Review))) :
  StronglySorted more_recent (sort_created_at_desc l).
Proof.
  induction l as [| d l IH]; simpl; [constructor | now apply insert_desc_sorted].
Qed.

Lemma descending_without_id (l : list (Document (Stamped Review))) :
  StronglySorted more_recent l -> descending (without_id l).
Proof.
  unfold descending. induction 1 as [| d l Hl IH Hd]; simpl; constructor.
  - exact IH.
  - rewrite Forall_forall in Hd |- *. intros x Hx.
    apply in_map_iff in Hx. destruct Hx as [e [<- He]]. now apply Hd.
Qed.

Lemma reviews_of_find (st : Store) (s : string) :
  without_id (find review_holds [review_sku_is s] (review st)) = reviews_of st s.
Proof.
  rewrite without_id_find. unfold reviews_of, reviews.
  apply filter_ext. intros x. simpl. apply andb_true_r.
Qed.

(** What [get_reviews] does on an available store. *)
Lemma get_reviews_outcome (st : Store) (s : string) (pg size_ : Z) :
  get_reviews (Some st) s pg size_ =
  page_outcome ((pg - 1) * size_) size_
    (Return (mkReviewPage
               (Cursor.window ((pg - 1) * size_) size_
                  (without_id
                     (sort_created_at_desc
                        (find review_holds [review_sku_is s] (review st)))))
               (Z.of_nat (List.length (reviews_of st s))))).
Proof.
  unfold get_reviews, page_outcome. cbv zeta. rewrite list_skip_limit.
  cbn [Cursor.sort Cursor.find Cursor.answer Cursor.skipped Cursor.limited bind].
  unfold count_documents. rewrite <- reviews_of_find. unfold without_id.
  now rewrite window_map, length_map.
Qed.

Lemma get_reviews_available (st : Store) (s : string) (pg size_ : Z) :
  1 <= pg -> 0 < size_ <= Cursor.max_int64 ->
  (pg - 1) * size_ <= Cursor.max_int64 ->
  get_reviews (Some st) s pg size_ =
  Return (mkReviewPage
            (paginate pg size_
               (without_id
                  (sort_created_at_desc
                     (find review_holds [review_sku_is s] (review st)))))
            (Z.of_nat (List.length (reviews_of st s)))).
Proof.
  intros Hp Hs Ho. rewrite get_reviews_outcome.
  rewrite page_outcome_returns by nia.
  now rewrite window_paginate by lia.
Qed.

Lemma get_reviews_returned (st : Store) (s : string) (pg size_ : Z)
    (r : ReviewPage) :
  0 < size_ ->
  get_reviews (Some st) s pg size_ = Return r ->
  r = mkReviewPage
        (paginate pg size_
           (without_id
              (sort_created_at_desc
                 (find review_holds [review_sku_is s] (review st)))))
        (Z.of_nat (List.length (reviews_of st s))).
Proof.
  intros Hs Hcall. rewrite get_reviews_outcome in Hcall.
  apply page_outcome_return_inv in Hcall. destruct Hcall as [Hr _].
  injection Hr as <-. now rewrite window_paginate by lia.
Qed.

Lemma sorted_reviews_perm (st : Store) (s : string) :
  Permutation
    (without_id
       (sort_created_at_desc (find review_holds [review_sku_is s] (review st))))
    (reviews_of st s).
Proof.
  rewrite <- reviews_of_find. unfold without_id.
  apply Permutation_map, sort_created_at_desc_perm.
Qed.

Lemma sorted_reviews_descending (st : Store) (s : string) :
  descending
    (without_id
       (sort_created_at_desc (find review_holds [review_sku_is s] (review st)))).
Proof. apply descending_without_id, sort_created_at_desc_sorted. Qed.

(** Most recent first is strictly so when no two creation times agree. *)
Lemma descending_strictly (l : list (Stamped Review)) :
  descending l -> NoDup (map (@created_at Review) l) -> strictly_descending l.
Proof.
  unfold descending, strictly_descending.
  induction 1 as [| a l Hl IH Ha]; intros Hnd; constructor.
  - apply IH. now inversion Hnd.
  - simpl in Hnd. inversion Hnd as [| ? ? Hnotin _]; subst.
    rewrite Forall_forall in Ha |- *. intros b Hb.
    specialize (Ha b Hb). simpl in Ha.
    assert (created_at b <> created_at a).
    { intros Heq. apply Hnotin. rewrite <- Heq. now apply in_map. }
    lia.
Qed.

(** C4, as amended.  With [page >= 1] and [page_size >= 1], the page that
    [get_reviews] returns holds the reviews of the SKU ordered by creation
    time descending, strictly so when no two of them were created at the
    same time, offset by [(page-1)*page_size] and capped at [page_size], with
    the count of all reviews of the SKU.  The page is returned whenever the
    size and the offset fit the 8 bytes of an integer of the store. *)
Theorem get_reviews_page (st : Store) (s : string) (pg size_ : Z) :
  1 <= pg -> 1 <= size_ ->
  (forall r,
      get_reviews (Some st) s pg size_ = Return r ->
      reviews_page descending st s pg size_ r /\
      (NoDup (map (@created_at Review) (reviews_of st s)) ->
       reviews_page strictly_descending st s pg size_ r)) /\
  (size_ <= Cursor.max_int64 -> (pg - 1) * size_ <= Cursor.max_int64 ->
   exists r, get_reviews (Some st) s pg size_ = Return r).
Proof.
  intros Hp Hs. split.
  - intros r Hcall. apply get_reviews_returned in Hcall; [| lia]. subst r.
    pose proof (sorted_reviews_perm st s) as Hperm.
    pose proof (sorted_reviews_descending st s) as Hdesc.
    split.
    + eexists. split; [exact Hperm |]. split; [exact Hdesc |].
      split; reflexivity.
    + intros Hnd. eexists. split; [exact Hperm |]. split.
      * apply descending_strictly; [exact Hdesc |].
        eapply Permutation_NoDup; [| exact Hnd].
        apply Permutation_map. symmetry. exact Hperm.
      * split; reflexivity.
  - intros Hsize Hoff. eexists.
    apply get_reviews_available; [assumption | lia | assumption].
Qed.

Lemma get_reviews_page_witness :
  (forall r,
      get_reviews (Some fixture) "P" 2 2 = Return r ->
      reviews_page descending fixture "P" 2 2 r /\
      (NoDup (map (@created_at Review) (reviews_of fixture "P")) ->
       reviews_page strictly_descending fixture "P" 2 2 r)) /\
  (exists r, get_reviews (Some fixture) "P" 2 2 = Return r).
Proof.
  destruct (get_reviews_page fixture "P" 2 2) as [Hpage Hreturns]; [lia | lia |].
  split; [exact Hpage |].
  apply Hreturns; unfold Cursor.max_int64; lia.
Defined.

(** The spec's fixture: reviews inserted out of time order come back most
    recent first. *)
Example reviews_most_recent_first :
  get_reviews (Some fixture) "P" 1 10 =
  Return (mkReviewPage
            [a_review "P" "third" 30; a_review "P" "second" 20;
             a_review "P" "first" 10] 3).
Proof. reflexivity. Qed.

(** Two reviews of a product posted at the same moment are both stored. *)
Example two_reviews_at_once :
  let st := mkStore [mkDocument 1 (plain_product "P" "Petrol Generator" 499 [])]
              [] [] [] 2 in
  let rv title := mkReview "P" title "body" 5 "someone" in
  snd (post_review (snd (post_review (Some st) 10 "P" (rv "one")))
         10 "P" (rv "other")) = Some tied.
Proof. reflexivity. Qed.

(** C4 as stated fails on them: the first page of ten holds both reviews,
    and no order of the two is strictly descending in creation time. *)
Lemma get_reviews_ties : ~ reviews_page_as_claimed tied "P" 1 10.
Proof.
  intros H.
  specialize (H (mkReviewPage [a_review "P" "one" 10; a_review "P" "other" 10] 2)
                eq_refl).
  destruct H as [ordered (Hperm & Hsorted & Hitems & _)].
  apply Permutation_length in Hperm.
  destruct ordered as [| a [| b [| c l]]]; try discriminate Hperm.
  cbn in Hitems. injection Hitems as <- <-.
  inversion Hsorted as [| ? ? _ Hall]; subst.
  inversion Hall as [| ? ? Hlt _]; subst. cbn in Hlt. lia.
Qed.

(** A page size of 0, outside the sizes the spec allows, is no cap at all
    for the cursor: the three reviews of [P] come back. *)
Example get_reviews_size_zero :
  get_reviews (Some fixture) "P" 1 0 =
  Return (mkReviewPage
            [a_review "P" "third" 30; a_review "P" "second" 20;
             a_review "P" "first" 10] 3).
Proof. reflexivity. Qed.

(** A page below 1 makes the offset negative, and the cursor refuses it. *)
Example get_reviews_page_zero :
  get_reviews (Some fixture) "P" 0 10 = Raise (ValueError "skip must be >= 0").
Proof. reflexivity. Qed.

(** ** Posting a review *)

Lemma find_one_unknown (st : Store) (s : string) :
  (forall p, In p (products st) -> sku p <> s) ->
  find_one product_holds [sku_is s] (product st) = None.
Proof.
  intros Hnone. apply find_one_none. intros a Ha.
  destruct (forallb (product_holds a) [sku_is s]) eqn:E; [| reflexivity].
  apply holds_sku_is in E. now apply Hnone in Ha.
Qed.

Lemma find_one_known (st : Store) (s : string) :
  (exists p, In p (products st) /\ sku p = s) ->
  exists d, find_one product_holds [sku_is s] (product st) = Some d.
Proof.
  intros [p [Hp Hs]].
  destruct (find_one product_holds [sku_is s] (product st)) as [d |] eqn:E;
    [now exists d |].
  rewrite find_one_none in E. specialize (E p Hp).
  apply holds_sku_is in Hs. congruence.
Qed.

(** C5.  [post_review] for a SKU that no product has fails with NotFound and
    leaves the store, in particular the review collection, as it was; so does
    the route on a body that validates. *)
Theorem post_review_unknown_sku (st : Store) (now : Z) (s : string) (rv : Review) :
  (forall p, In p (products st) -> sku p <> s) ->
  post_review (Some st) now s rv = (Raise NotFound, Some st) /\
  (forall body,
      validate_Review body = Return rv ->
      post_review_route (Some st) now s body = (Raise NotFound, Some st)).
Proof.
  intros Hnone.
  assert (H : post_review (Some st) now s rv = (Raise NotFound, Some st)).
  { unfold post_review. now rewrite find_one_unknown. }
  split; [exact H |].
  intros body Hvalid. unfold post_review_route. rewrite Hvalid. exact H.
Qed.

Lemma post_review_unknown_sku_witness :
  post_review (Some fixture) 40 "ZZ" (mkReview "P" "t" "b" 4 "me")
    = (Raise NotFound, Some fixture) /\
  (forall body,
      validate_Review body = Return (mkReview "P" "t" "b" 4 "me") ->
      post_review_route (Some fixture) 40 "ZZ" body = (Raise NotFound, Some fixture)).
Proof.
  apply (post_review_unknown_sku fixture 40 "ZZ" (mkReview "P" "t" "b" 4 "me")).
  intros p Hp. simpl in Hp. destruct Hp as [<- | [<- | []]]; discriminate.
Defined.

(** C6.  [post_review] for the SKU of a catalogue product persists one new
    review, the validated body with its SKU replaced by the SKU of the path
    and stamped with the time of the call, changes nothing else, and answers
    with the status alone: no identifier is returned. *)
Theorem post_review_persists (st : Store) (now : Z) (s : string) (rv : Review) :
  (exists p, In p (products st) /\ sku p = s) ->
  exists st' persisted,
    post_review (Some st) now s rv = (Return [("status", Str "ok")], Some st') /\
    reviews st' = (reviews st ++ [persisted])%list /\
    review_sku (data persisted) = s /\
    created_at persisted = now /\
    review_title (data persisted) = review_title rv /\
    review_body (data persisted) = review_body rv /\
    rating (data persisted) = rating rv /\
    author (data persisted) = author rv /\
    product st' = product st /\
    sparepart st' = sparepart st /\
    order st' = order st.
Proof.
  intros Hknown. destruct (find_one_known st s Hknown) as [d Hd].
  unfold post_review. rewrite Hd. simpl.
  eexists. exists (mkStamped (with_sku rv s) now).
  split; [reflexivity |].
  unfold reviews, without_id. cbn [review product sparepart order].
  rewrite map_app. repeat split.
Qed.

Lemma post_review_persists_witness :
  exists st' persisted,
    post_review (Some fixture) 40 "P" (mkReview "other" "t" "b" 4 "me")
      = (Return [("status", Str "ok")], Some st') /\
    reviews st' = (reviews fixture ++ [persisted])%list /\
    review_sku (data persisted) = "P" /\
    created_at persisted = 40 /\
    review_title (data persisted) = "t" /\
    review_body (data persisted) = "b" /\
    rating (data persisted) = 4 /\
    author (data persisted) = "me" /\
    product st' = product fixture /\
    sparepart st' = sparepart fixture /\
    order st' = order fixture.
Proof.
  apply (post_review_persists fixture 40 "P" (mkReview "other" "t" "b" 4 "me")).
  exists (plain_product "P" "Petrol Generator" 499 ["A"; "B"]).
  split; [simpl; auto | reflexivity].
Defined.

(** ** Containment without case, decided *)





(** The store folds the accented letters with the others. *)
Example accented_letters_fold :
  lowercase (String (ascii_of_nat 201) "COLE") = String (ascii_of_nat 233) "cole" /\
  lower (ascii_of_nat 215) = ascii_of_nat 215.
Proof. split; reflexivity. Qed.

(** ** Search suggestions *)


Lemma first_image_spec (p : Product) :
  first_image p = first_image_or_absent p.
Proof.
  unfold first_image, first_image_or_absent.
  destruct (media p) as [m |]; [| reflexivity].
  destruct (images m) as [[| u l] |]; reflexivity.
Qed.

Lemma suggestion_returns (p : Product) (s : SearchSuggestion) :
  suggestion p = Return s -> s = suggestion_of p.
Proof.
  unfold suggestion, suggestion_of. rewrite <- first_image_spec.
  destruct (first_image p) as [u |].
  - destruct (HttpUrl u); [| discriminate]. now intros [= <-].
  - now intros [= <-].
Qed.



Lemma suggestion_raises (p : Product) (e : exn) :
  suggestion p = Raise e ->
  e = ValidationError "image" /\
  exists u, first_image_or_absent p = Some u /\ HttpUrl u = None.
Proof.
  unfold suggestion. rewrite <- first_image_spec.
  destruct (first_image p) as [u |]; [| discriminate].
  destruct (HttpUrl u) eqn:E; [discriminate |].
  intros [= <-]. eauto.
Qed.

Lemma collect_returns {A B : Type} (f : A -> result B) (l : list A) (out : list B) :
  collect f l = Return out ->
  List.length out = List.length l /\
  (forall b, In b out -> exists a, In a l /\ f a = Return b).
Proof.
  revert out. induction l as [| a l IH]; simpl; intros out H.
  - injection H as <-. split; [reflexivity | intros b []].
  - destruct (f a) as [b | e] eqn:Ea; simpl in H; try discriminate.
    destruct (collect f l) as [bs | e]; simpl in H; try discriminate.
    injection H as <-. destruct (IH bs eq_refl) as [Hlen Hin]. split.
    + simpl. now rewrite Hlen.
    + intros b' [<- | Hb']; [eauto |].
      destruct (Hin b' Hb') as [a' [Ha' Hf]]. eauto.
Qed.


Lemma collect_map {A B : Type} (f : A -> result B) (g : A -> B) (l : list A)
    (out : list B) :
  (forall a b, f a = Return b -> b = g a) ->
  collect f l = Return out -> out = map g l.
Proof.
  intros Hg. revert out. induction l as [| a l IH]; simpl; intros out H.
  - now injection H as <-.
  - destruct (f a) as [b | e] eqn:Ea; simpl in H; try discriminate.
    destruct (collect f l) as [bs | e]; simpl in H; try discriminate.
    injection H as <-. now rewrite (Hg a b Ea), (IH bs eq_refl).
Qed.

Lemma int64_0 : Cursor.int64 0 = true.
Proof. reflexivity. Qed.

Lemma title_matches_find (st : Store) (test : string -> bool) :
  without_id (find product_holds [title_regex_i test] (product st)) =
  title_matches st test.
Proof.
  rewrite without_id_find. unfold title_matches, products.
  apply filter_ext. intros p. cbn [forallb product_holds]. apply andb_true_r.
Qed.

(** What [search] does on an available store: the check of the framework,
    then the encoder, then the store, then the response models. *)
Lemma search_outcome (st : Store) (q : string) (limit : Z) :
  search (Some st) q limit =
  (_ <- check "q" ((1 <=? String.length q)%nat && (String.length q <=? 60)%nat) ;;
   if Cursor.int64 (Z.abs limit) then
     match regex_i q with
     | Some test =>
         collect suggestion (Cursor.window 0 limit (title_matches st test))
     | None => Raise OperationFailure
     end
   else Raise OverflowError).
Proof.
  unfold search. destruct (check "q" _); [| reflexivity]. cbn [bind].
  unfold Cursor.list, Cursor.limit, Cursor.find.
  cbn [Cursor.skipped Cursor.limited Cursor.answer]. rewrite int64_0.
  cbn [andb]. destruct (Cursor.int64 (Z.abs limit)); [| reflexivity].
  destruct (regex_i q) as [test |]; [| reflexivity]. cbn [bind].
  unfold without_id at 1. rewrite <- window_map.
  fold (without_id (find product_holds [title_regex_i test] (product st))).
  now rewrite title_matches_find.
Qed.




(** ** Spare parts *)



(** What [spares_for] does on an available store. *)
Lemma spares_for_outcome (st : Store) (sku_f q : option string) :
  spares_for (Some st) sku_f q =
  (by_title <- regex_entry q spare_title_regex_i ;;
   Return (without_id
             (find spare_holds
                (entry_if sku_f compatible_skus_has ++ by_title)%list
                (sparepart st)))).
Proof.
  unfold spares_for, Cursor.list, Cursor.find.
  cbn [Cursor.skipped Cursor.limited Cursor.answer].
  change (Z.abs 0) with 0. rewrite int64_0. cbn [andb].
  destruct (regex_entry q spare_title_regex_i); reflexivity.
Qed.



(** ** Validation *)

Lemma bind_outcome {A B : Type} (m : result A) (k : A -> result B) :
  accepted_or_invalid m ->
  (forall a, m = Return a -> accepted_or_invalid (k a)) ->
  accepted_or_invalid (bind m k).
Proof.
  intros [[a ->] | [loc ->]] Hk; simpl.
  - now apply Hk.
  - right. now exists loc.
Qed.

Lemma required_outcome {A : Type} (loc : string) (v : option A) :
  accepted_or_invalid (required loc v).
Proof.
  destruct v as [a |]; simpl; [left; eauto | right; now exists loc].
Qed.

Lemma check_outcome (loc : string) (ok : bool) :
  accepted_or_invalid (check loc ok).
Proof.
  destruct ok; simpl; [left; eauto | right; now exists loc].
Qed.

Lemma return_outcome {A : Type} (a : A) : accepted_or_invalid (Return a).
Proof. left. eauto. Qed.

Lemma collect_outcome {A B : Type} (f : A -> result B) (l : list A) :
  (forall a, accepted_or_invalid (f a)) -> accepted_or_invalid (collect f l).
Proof.
  intros Hf. induction l as [| a l IH]; simpl; [apply return_outcome |].
  apply bind_outcome; [apply Hf |]. intros b _.
  apply bind_outcome; [exact IH |]. intros bs _. apply return_outcome.
Qed.

Lemma url_outcome (loc : string) (u : string) :
  accepted_or_invalid (url loc u).
Proof.
  unfold url. destruct (HttpUrl u); [left; eauto | right; now exists loc].
Qed.

Lemma optional_url_outcome (loc : string) (v : option string) :
  accepted_or_invalid (optional_url loc v).
Proof.
  destruct v as [u |]; simpl; [| apply return_outcome].
  apply bind_outcome; [apply url_outcome |]. intros normal _. apply return_outcome.
Qed.

Create HintDb outcome.

#[local] Hint Resolve required_outcome check_outcome return_outcome
  url_outcome optional_url_outcome collect_outcome : outcome.

Ltac outcome :=
  repeat first
    [ apply return_outcome
    | apply bind_outcome; [auto with outcome | intros ? _] ].

Lemma validate_Review_outcome (b : ReviewBody) :
  accepted_or_invalid (validate_Review b).
Proof. unfold validate_Review. outcome. Qed.

Lemma validate_PriceInfo_outcome (b : PriceInfoBody) :
  accepted_or_invalid (validate_PriceInfo b).
Proof. unfold validate_PriceInfo. outcome. Qed.

Lemma validate_Media_outcome (b : MediaBody) :
  accepted_or_invalid (validate_Media b).
Proof. unfold validate_Media. outcome. Qed.

Lemma validate_Address_outcome (b : AddressBody) :
  accepted_or_invalid (validate_Address b).
Proof. unfold validate_Address. outcome. Qed.

Lemma validate_OrderItem_outcome (b : OrderItemBody) :
  accepted_or_invalid (validate_OrderItem b).
Proof. unfold validate_OrderItem. outcome. Qed.

#[local] Hint Resolve validate_PriceInfo_outcome validate_Media_outcome
  validate_Address_outcome validate_OrderItem_outcome : outcome.

Lemma validate_Product_outcome (b : ProductBody) :
  accepted_or_invalid (validate_Product b).
Proof.
  unfold validate_Product. outcome.
  destruct (in_media b); auto with outcome.
Qed.

Lemma validate_Order_outcome (b : OrderBody) :
  accepted_or_invalid (validate_Order b).
Proof.
  unfold validate_Order. outcome.
  destruct (in_billing_address b); outcome.
Qed.

Lemma required_inv {A : Type} (loc : string) (v : option A) (a : A) :
  required loc v = Return a -> v = Some a.
Proof. destruct v; simpl; congruence. Qed.

Lemma check_inv (loc : string) (ok : bool) (u : unit) :
  check loc ok = Return u -> ok = true.
Proof. destruct ok; simpl; congruence. Qed.

Lemma required_present {A : Type} (loc : string) (v : option A) :
  present v -> exists a, v = Some a /\ required loc v = Return a.
Proof. destruct v as [a |]; [eauto | intros H; now destruct H]. Qed.

(** Read a successful run of binds backwards, one step at a time. *)
Ltac invert_bind H :=
  repeat match type of H with
         | bind ?m _ = Return _ =>
             let E := fresh "E" in
             destruct m eqn:E; cbn [bind] in H;
             [| discriminate H]
         end.

Lemma validate_Review_sound (b : ReviewBody) (rv : Review) :
  validate_Review b = Return rv ->
  in_rating b = Some (rating rv) /\ 1 <= rating rv <= 5.
Proof.
  unfold validate_Review. intros H. invert_bind H. injection H as <-.
  apply required_inv in E2. apply check_inv in E3.
  apply andb_true_iff in E3. destruct E3 as [Hlo Hhi].
  apply Z.leb_le in Hlo, Hhi. simpl. auto.
Qed.

Lemma validate_PriceInfo_sound (b : PriceInfoBody) (p : PriceInfo) :
  validate_PriceInfo b = Return p ->
  in_inc_vat b = Some (inc_vat p) /\ (0 <= inc_vat p)%Q /\
  in_ex_vat b = Some (ex_vat p) /\ (0 <= ex_vat p)%Q /\
  (forall c, in_currency b = Some c -> c = "GBP").
Proof.
  unfold validate_PriceInfo. intros H. invert_bind H. injection H as <-.
  apply required_inv in E, E1. apply check_inv in E0, E2, E3.
  apply Qle_bool_iff in E0, E2. apply String.eqb_eq in E3. simpl.
  repeat split; auto.
  intros c Hc. rewrite Hc in E3. exact E3.
Qed.

Lemma validate_Product_sound (b : ProductBody) (p : Product) :
  validate_Product b = Return p ->
  (forall w, in_weight_kg b = Some w -> (0 <= w)%Q) /\
  (forall ps, in_power_source b = Some ps -> In ps PowerSource).
Proof.
  unfold validate_Product. intros H. invert_bind H.
  apply check_inv in E3, E4. split.
  - intros w Hw. rewrite Hw in E4. now apply Qle_bool_iff.
  - intros ps Hps. rewrite Hps in E3. now apply in_list_In.
Qed.

Lemma validate_OrderItem_sound (b : OrderItemBody) (it : OrderItem) :
  validate_OrderItem b = Return it ->
  in_qty b = Some (qty it) /\ 1 <= qty it.
Proof.
  unfold validate_OrderItem. intros H. invert_bind H. injection H as <-.
  apply required_inv in E1. apply check_inv in E2. apply Z.leb_le in E2.
  simpl. auto.
Qed.

Lemma collect_each {A B : Type} (f : A -> result B) (l : list A) (out : list B) :
  collect f l = Return out -> forall a, In a l -> exists b, f a = Return b.
Proof.
  revert out. induction l as [| a l IH]; simpl; intros out H x Hx; [contradiction |].
  invert_bind H. destruct Hx as [<- | Hx]; eauto.
Qed.

Lemma validate_Order_sound (b : OrderBody) (o : Order) :
  validate_Order b = Return o ->
  (forall its it n, in_items b = Some its -> In it its -> in_qty it = Some n ->
                    1 <= n) /\
  (forall pm, in_payment_method b = Some pm -> In pm PaymentMethod).
Proof.
  unfold validate_Order. intros H. invert_bind H.
  apply required_inv in E3. apply check_inv in E6. split.
  - intros its it n Hits Hit Hn. rewrite Hits in E3. injection E3 as <-.
    destruct (collect_each _ _ _ E4 it Hit) as [v Hv].
    apply validate_OrderItem_sound in Hv. destruct Hv as [Hq Hle].
    rewrite Hn in Hq. injection Hq as ->. exact Hle.
  - intros pm Hpm. rewrite Hpm in E6. now apply in_list_In.
Qed.

Lemma validate_Review_complete (b : ReviewBody) :
  Review_ok b -> exists rv, validate_Review b = Return rv.
Proof.
  intros (Hs & Ht & Hb & [r [Hr Hrange]] & Ha). unfold validate_Review.
  destruct (required_present "sku" _ Hs) as [s [_ ->]].
  destruct (required_present "title" _ Ht) as [t [_ ->]].
  destruct (required_present "body" _ Hb) as [bd [_ ->]].
  destruct (required_present "author" _ Ha) as [a [_ ->]].
  rewrite Hr. cbn [bind required].
  replace ((1 <=? r) && (r <=? 5)) with true
    by (symmetry; apply andb_true_iff; split; apply Z.leb_le; lia).
  cbn [bind check]. eauto.
Qed.

Lemma validate_Address_complete (b : AddressBody) :
  Address_ok b -> exists a, validate_Address b = Return a.
Proof.
  intros (Hn & Hl & Hc & Hp). unfold validate_Address.
  destruct (required_present "full_name" _ Hn) as [n [_ ->]].
  destruct (required_present "line1" _ Hl) as [l [_ ->]].
  destruct (required_present "city" _ Hc) as [c [_ ->]].
  destruct (required_present "postcode" _ Hp) as [p [_ ->]].
  cbn [bind]. eauto.
Qed.

Lemma validate_OrderItem_complete (b : OrderItemBody) :
  OrderItem_ok b -> exists it, validate_OrderItem b = Return it.
Proof.
  intros (Hs & Ht & [n [Hn Hle]] & Hu). unfold validate_OrderItem.
  destruct (required_present "sku" _ Hs) as [s [_ ->]].
  destruct (required_present "title" _ Ht) as [t [_ ->]].
  destruct (required_present "unit_price_inc_vat" _ Hu) as [u [_ ->]].
  rewrite Hn. cbn [bind required].
  replace (1 <=? n) with true by (symmetry; apply Z.leb_le; lia).
  cbn [bind check]. eauto.
Qed.

Lemma collect_complete {A B : Type} (f : A -> result B) (l : list A) :
  Forall (fun a => exists b, f a = Return b) l ->
  exists out, collect f l = Return out.
Proof.
  induction 1 as [| a l [b Hb] _ [out IH]]; simpl; [eauto |].
  rewrite Hb, IH. simpl. eauto.
Qed.

Lemma validate_Order_complete (b : OrderBody) :
  Order_ok b -> exists o, validate_Order b = Return o.
Proof.
  intros (He & [sa [Hsa Hsok]] & Hbill & [its [Hits Hitsok]] & Ht & Hpm).
  unfold validate_Order.
  destruct (required_present "email" _ He) as [e [_ ->]].
  destruct (required_present "total_inc_vat" _ Ht) as [t [_ ->]].
  rewrite Hsa, Hits. cbn [bind required].
  destruct (validate_Address_complete sa Hsok) as [s ->]. cbn [bind].
  assert (Hb : exists bl,
             match in_billing_address b with
             | Some bb => a <- validate_Address bb ;; Return (Some a)
             | None => Return None
             end = Return bl).
  { destruct (in_billing_address b) as [bb |]; [| eauto].
    destruct (validate_Address_complete bb (Hbill bb eq_refl)) as [a ->].
    simpl. eauto. }
  destruct Hb as [bl ->]. cbn [bind].
  destruct (collect_complete validate_OrderItem its) as [out ->].
  { eapply Forall_impl; [| exact Hitsok].
    intros a. apply validate_OrderItem_complete. }
  cbn [bind].
  replace (in_list (default "card" (in_payment_method b)) PaymentMethod)
    with true.
  - cbn [bind check]. eauto.
  - symmetry. destruct (in_payment_method b) as [pm |]; [| reflexivity].
    apply in_list_In. now apply Hpm.
Qed.

Lemma refused_when_invalid {A : Type} (v : result A) (db : option Store)
    (handler : A -> result response * option Store) :
  accepted_or_invalid v -> (forall a, v <> Return a) ->
  refused db (validated v db handler).
Proof.
  intros [[a Ha] | [loc Hloc]] Hnot.
  - now destruct (Hnot a).
  - rewrite Hloc. split; [now exists loc | reflexivity].
Qed.

Lemma invalid_when_not_accepted {A : Type} (v : result A) :
  accepted_or_invalid v -> (forall a, v <> Return a) -> InvalidInput v.
Proof.
  intros [[a Ha] | H] Hnot; [now destruct (Hnot a) | exact H].
Qed.

Lemma post_review_known (st : Store) (now : Z) (s : string) (rv : Review) :
  (exists p, In p (products st) /\ sku p = s) ->
  post_review (Some st) now s rv =
  (Return [("status", Str "ok")],
   Some (snd (create_document st now (into_review (with_sku rv s))))).
Proof.
  intros Hknown. destruct (find_one_known st s Hknown) as [d Hd].
  unfold post_review. now rewrite Hd.
Qed.

(** C9.  The write routes validate the body against its model before the
    handler runs: a review rating outside 1..5, an order item quantity below
    1 or a payment method outside its literals is refused with InvalidInput
    and the store is left as it was; the price and product models refuse a
    negative inc_vat or ex_vat, a currency other than GBP, a negative weight
    and a power source outside its literals.  A body that satisfies every
    declared constraint is accepted: the handler runs on the validated value,
    and on an available store the order is persisted (the review too, when
    its product exists). *)
Theorem invalid_input_refused (db : option Store) (now : Z) (s : string) :
  (forall body r,
      in_rating body = Some r -> r < 1 \/ 5 < r ->
      refused db (post_review_route db now s body)) /\
  (forall body its it n,
      in_items body = Some its -> In it its -> in_qty it = Some n -> n < 1 ->
      refused db (checkout_route db now body)) /\
  (forall body pm,
      in_payment_method body = Some pm -> ~ In pm PaymentMethod ->
      refused db (checkout_route db now body)) /\
  (forall b x,
      in_inc_vat b = Some x \/ in_ex_vat b = Some x -> (x < 0)%Q ->
      InvalidInput (validate_PriceInfo b)) /\
  (forall b c,
      in_currency b = Some c -> c <> "GBP" ->
      InvalidInput (validate_PriceInfo b)) /\
  (forall b w,
      in_weight_kg b = Some w -> (w < 0)%Q ->
      InvalidInput (validate_Product b)) /\
  (forall b ps,
      in_power_source b = Some ps -> ~ In ps PowerSource ->
      InvalidInput (validate_Product b)) /\
  (forall body,
      Review_ok body ->
      exists rv,
        validate_Review body = Return rv /\
        post_review_route db now s body = post_review db now s rv /\
        (forall st,
            db = Some st -> (exists p, In p (products st) /\ sku p = s) ->
            exists st',
              post_review_route db now s body
                = (Return [("status", Str "ok")], Some st') /\
              reviews st' = (reviews st ++ [mkStamped (with_sku rv s) now])%list)) /\
  (forall body,
      Order_ok body ->
      exists o,
        validate_Order body = Return o /\
        checkout_route db now body = checkout db now o /\
        (forall st,
            db = Some st ->
            exists st',
              checkout_route db now body
                = (Return [("status", Str "ok"); ("order_id", Oid (next_id st))],
                   Some st') /\
              orders st' = (orders st ++ [mkStamped o now])%list)).
Proof.
  repeat apply conj.
  - intros body r Hr Hout. unfold post_review_route.
    apply refused_when_invalid; [apply validate_Review_outcome |].
    intros rv Hrv. apply validate_Review_sound in Hrv.
    destruct Hrv as [Hr' Hrange]. rewrite Hr in Hr'. injection Hr' as ->. lia.
  - intros body its it n Hits Hit Hn Hlt. unfold checkout_route.
    apply refused_when_invalid; [apply validate_Order_outcome |].
    intros o Ho. apply validate_Order_sound in Ho. destruct Ho as [Hq _].
    specialize (Hq its it n Hits Hit Hn). lia.
  - intros body pm Hpm Hnot. unfold checkout_route.
    apply refused_when_invalid; [apply validate_Order_outcome |].
    intros o Ho. apply validate_Order_sound in Ho. destruct Ho as [_ Hin].
    now apply Hnot, Hin.
  - intros b x Hx Hneg.
    apply invalid_when_not_accepted; [apply validate_PriceInfo_outcome |].
    intros p Hp. apply validate_PriceInfo_sound in Hp.
    destruct Hp as (Hi & Hi0 & He & He0 & _).
    destruct Hx as [Hx | Hx]; [rewrite Hx in Hi | rewrite Hx in He].
    + injection Hi as ->. now apply (Qlt_not_le _ _ Hneg).
    + injection He as ->. now apply (Qlt_not_le _ _ Hneg).
  - intros b c Hc Hne.
    apply invalid_when_not_accepted; [apply validate_PriceInfo_outcome |].
    intros p Hp. apply validate_PriceInfo_sound in Hp.
    destruct Hp as (_ & _ & _ & _ & Hcur). now apply Hne, Hcur.
  - intros b w Hw Hneg.
    apply invalid_when_not_accepted; [apply validate_Product_outcome |].
    intros p Hp. apply validate_Product_sound in Hp. destruct Hp as [Hweight _].
    now apply (Qlt_not_le _ _ Hneg), Hweight.
  - intros b ps Hps Hnot.
    apply invalid_when_not_accepted; [apply validate_Product_outcome |].
    intros p Hp. apply validate_Product_sound in Hp. destruct Hp as [_ Hin].
    now apply Hnot, Hin.
  - intros body Hok. destruct (validate_Review_complete body Hok) as [rv Hrv].
    exists rv. split; [exact Hrv |].
    assert (Hroute : post_review_route db now s body = post_review db now s rv)
      by (unfold post_review_route; now rewrite Hrv).
    split; [exact Hroute |].
    intros st -> Hknown. rewrite Hroute, (post_review_known st now s rv Hknown).
    eexists. split; [reflexivity |].
    unfold reviews, without_id. simpl. now rewrite map_app.
  - intros body Hok. destruct (validate_Order_complete body Hok) as [o Ho].
    exists o. split; [exact Ho |].
    assert (Hroute : checkout_route db now body = checkout db now o)
      by (unfold checkout_route; now rewrite Ho).
    split; [exact Hroute |].
    intros st ->. rewrite Hroute. unfold checkout. simpl.
    eexists. split; [reflexivity |].
    unfold orders, without_id. simpl. now rewrite map_app.
Qed.

Example rating_bounds :
  validate_Review (mkReviewBody (Some "P") (Some "t") (Some "b") (Some 0) (Some "me"))
    = Raise (RequestValidationError "rating") /\
  validate_Review (mkReviewBody (Some "P") (Some "t") (Some "b") (Some 1) (Some "me"))
    = Return (mkReview "P" "t" "b" 1 "me") /\
  validate_Review (mkReviewBody (Some "P") (Some "t") (Some "b") (Some 5) (Some "me"))
    = Return (mkReview "P" "t" "b" 5 "me") /\
  validate_Review (mkReviewBody (Some "P") (Some "t") (Some "b") (Some 6) (Some "me"))
    = Raise (RequestValidationError "rating").
Proof. repeat split. Qed.

(** * Further properties of the handlers *)

(** ** Paging *)

Lemma page_outcome_cases {A : Type} (offset size_ : Z) (page : A) :
  (page_outcome offset size_ (Return page) = Raise (ValueError "skip must be >= 0")
   <-> offset < 0) /\
  (page_outcome offset size_ (Return page) =
     Raise OverflowError
   <-> 0 <= offset /\
       (Cursor.max_int64 < offset \/ Cursor.max_int64 < Z.abs size_)) /\
  ((exists r, page_outcome offset size_ (Return page) = Return r)
   <-> 0 <= offset <= Cursor.max_int64 /\ Z.abs size_ <= Cursor.max_int64).
Proof.
  unfold page_outcome, Cursor.int64.
  destruct (offset <? 0) eqn:E; [apply Z.ltb_lt in E | apply Z.ltb_ge in E].
  - split; [tauto |]. split.
    + split; [discriminate | lia].
    + split; [intros [r Hr]; discriminate | lia].
  - destruct (offset <=? Cursor.max_int64) eqn:Eo;
      [apply Z.leb_le in Eo | apply Z.leb_gt in Eo];
      (destruct (Z.abs size_ <=? Cursor.max_int64) eqn:Es;
       [apply Z.leb_le in Es | apply Z.leb_gt in Es]); cbn [andb].
    + split; [split; [discriminate | lia] |]. split.
      * split; [discriminate | lia].
      * split; [lia | eauto].
    + split; [split; [discriminate | lia] |]. split.
      * split; [lia | reflexivity].
      * split; [intros [r Hr]; discriminate | lia].
    + split; [split; [discriminate | lia] |]. split.
      * split; [lia | reflexivity].
      * split; [intros [r Hr]; discriminate | lia].
    + split; [split; [discriminate | lia] |]. split.
      * split; [lia | reflexivity].
      * split; [intros [r Hr]; discriminate | lia].
Qed.

(** X1.  On an available store [list_products] raises pymongo's [ValueError]
    exactly when the offset [(page-1)*page_size] is negative, its
    [OverflowError] exactly when the offset is not negative and the offset
    or the absolute value of the size does not fit 8 bytes, and returns a
    page exactly in the remaining case. *)
Theorem list_products_raises_iff (st : Store)
    (brand_f category_f power_source_f : option string)
    (min_price max_price : option Q) (pg size_ : Z) :
  (list_products (Some st) brand_f category_f power_source_f min_price max_price
     pg size_ = Raise (ValueError "skip must be >= 0")
   <-> (pg - 1) * size_ < 0) /\
  (list_products (Some st) brand_f category_f power_source_f min_price max_price
     pg size_ = Raise OverflowError
   <-> 0 <= (pg - 1) * size_ /\
       (Cursor.max_int64 < (pg - 1) * size_ \/ Cursor.max_int64 < Z.abs size_)) /\
  ((exists r, list_products (Some st) brand_f category_f power_source_f
                min_price max_price pg size_ = Return r)
   <-> 0 <= (pg - 1) * size_ <= Cursor.max_int64 /\
       Z.abs size_ <= Cursor.max_int64).
Proof.
  rewrite list_products_outcome. apply page_outcome_cases.
Qed.

(** X2.  A page size of 0 is no cap: every page then holds all the matches. *)
Theorem list_products_page_size_zero (st : Store)
    (brand_f category_f power_source_f : option string)
    (min_price max_price : option Q) (pg : Z) :
  list_products (Some st) brand_f category_f power_source_f min_price max_price
    pg 0 =
  Return (mkProductPage
            (matching_products st brand_f category_f power_source_f
               min_price max_price)
            (Z.of_nat (List.length
               (matching_products st brand_f category_f power_source_f
                  min_price max_price)))
            (Some pg) (Some 0)).
Proof.
  rewrite list_products_outcome.
  replace ((pg - 1) * 0) with 0 by lia. reflexivity.
Qed.

Lemma firstn_plus {A : Type} (a b : nat) (l : list A) :
  firstn (a + b) l = (firstn a l ++ firstn b (skipn a l))%list.
Proof.
  revert l. induction a as [| a IH]; intros l; simpl; [reflexivity |].
  destruct l as [| x l]; simpl.
  - now rewrite firstn_nil.
  - now rewrite IH.
Qed.

Lemma concat_pages {A : Type} (l : list A) (n k : nat) :
  List.concat (map (fun i => firstn n (skipn (i * n) l)) (seq 0 k)) =
  firstn (k * n) l.
Proof.
  induction k as [| k IH]; [reflexivity |].
  rewrite seq_S, map_app, concat_app, IH. simpl.
  rewrite app_nil_r, <- firstn_plus. f_equal. lia.
Qed.

Lemma listed_page_paginate (st : Store)
    (brand_f category_f power_source_f : option string)
    (min_price max_price : option Q) (pg size_ : Z) :
  1 <= pg -> 0 < size_ <= Cursor.max_int64 ->
  (pg - 1) * size_ <= Cursor.max_int64 ->
  listed_page st brand_f category_f power_source_f min_price max_price pg size_ =
  paginate pg size_
    (matching_products st brand_f category_f power_source_f min_price max_price).
Proof.
  intros Hp Hs Ho. unfold listed_page.
  now rewrite list_products_available by assumption.
Qed.

(** X3.  Paging through: with a positive page size, pages 1 to [k] put end
    to end are the first [k * page_size] matches in store order, hence all
    the matches, each once, as soon as [k * page_size] reaches the total;
    for [k * page_size] that fits 8 bytes. *)
Theorem list_products_pages_cover (st : Store)
    (brand_f category_f power_source_f : option string)
    (min_price max_price : option Q) (size_ : Z) (k : nat) :
  0 < size_ -> Z.of_nat k * size_ <= Cursor.max_int64 ->
  let matches :=
    matching_products st brand_f category_f power_source_f min_price max_price in
  let pages :=
    List.concat (map (fun i =>
                   listed_page st brand_f category_f power_source_f
                     min_price max_price (Z.of_nat i + 1) size_)
              (seq 0 k)) in
  pages = firstn (k * Z.to_nat size_) matches /\
  (Z.of_nat (List.length matches) <= Z.of_nat k * size_ -> pages = matches).
Proof.
  intros Hs Hfit matches pages.
  assert (Hpages : pages = firstn (k * Z.to_nat size_) matches).
  { unfold pages. rewrite <- concat_pages. apply f_equal, map_ext_in.
    intros i Hi. apply in_seq in Hi.
    rewrite listed_page_paginate by nia. unfold paginate.
    fold matches. do 2 f_equal.
    replace (Z.of_nat i + 1 - 1) with (Z.of_nat i) by lia.
    rewrite Z2Nat.inj_mul, Nat2Z.id by lia. reflexivity. }
  split; [exact Hpages |].
  intros Hall. rewrite Hpages. apply firstn_all2. nia.
Qed.

Lemma list_products_pages_cover_witness :
  List.concat (map (fun i => listed_page seeded None None None None None
                          (Z.of_nat i + 1) 1) (seq 0 2))
    = firstn (2 * Z.to_nat 1) (matching_products seeded None None None None None) /\
  (Z.of_nat (List.length (matching_products seeded None None None None None))
     <= Z.of_nat 2 * 1 ->
   List.concat (map (fun i => listed_page seeded None None None None None
                           (Z.of_nat i + 1) 1) (seq 0 2))
     = matching_products seeded None None None None None).
Proof.
  apply (list_products_pages_cover seeded None None None None None 1 2);
    unfold Cursor.max_int64; lia.
Defined.

(** X4.  The number of items on a page: [page_size], or what is left of the
    matches after the offset, or none. *)
Theorem list_products_page_length (st : Store)
    (brand_f category_f power_source_f : option string)
    (min_price max_price : option Q) (pg size_ : Z) (r : ProductPage) :
  1 <= pg -> 0 < size_ ->
  list_products (Some st) brand_f category_f power_source_f min_price max_price
    pg size_ = Return r ->
  Z.of_nat (List.length (page_items r)) =
  Z.max 0 (Z.min size_ (total r - (pg - 1) * size_)).
Proof.
  intros Hp Hs Hcall. apply list_products_returned in Hcall; [| assumption].
  subst r. simpl. unfold paginate.
  rewrite length_firstn, length_skipn. nia.
Qed.

Lemma list_products_page_length_witness :
  Z.of_nat (List.length [JCB_18V_IMPACT]) =
  Z.max 0 (Z.min 1 (2 - (2 - 1) * 1)).
Proof.
  apply (list_products_page_length seeded None None None None None 2 1
           (mkProductPage [JCB_18V_IMPACT] 2 (Some 2) (Some 1))); [lia | lia |].
  reflexivity.
Defined.

(** X5.  Filters combine by intersection: a product matches several filters
    exactly when it matches each of them given alone. *)
Theorem list_products_filters_intersect (st : Store)
    (brand_f category_f power_source_f : option string)
    (min_price max_price : option Q) (p : Product) :
  In p (matching_products st brand_f category_f power_source_f min_price max_price)
  <->
  In p (matching_products st brand_f None None None None) /\
  In p (matching_products st None category_f None None None) /\
  In p (matching_products st None None power_source_f None None) /\
  In p (matching_products st None None None min_price None) /\
  In p (matching_products st None None None None max_price).
Proof.
  rewrite !in_matching_products. unfold satisfies_filters, given.
  split.
  - intros (Hin & Hb & Hc & Hs & Hlo & Hhi).
    repeat split; auto; intros ? [? ?] || intros ? ?; discriminate.
  - intros ((Hin & Hb & _) & (_ & _ & Hc & _) & (_ & _ & _ & Hs & _) &
            (_ & _ & _ & _ & Hlo & _) & (_ & _ & _ & _ & _ & Hhi)).
    repeat split; auto.
Qed.

(** ** Reviews, for every page *)

Lemma StronglySorted_skipn {A : Type} (R : A -> A -> Prop) (n : nat) (l : list A) :
  StronglySorted R l -> StronglySorted R (skipn n l).
Proof.
  revert l. induction n as [| n IH]; intros l H; [exact H |].
  destruct l as [| a l]; [exact H |]. simpl. apply IH.
  now inversion H.
Qed.

Lemma StronglySorted_firstn {A : Type} (R : A -> A -> Prop) (n : nat) (l : list A) :
  StronglySorted R l -> StronglySorted R (firstn n l).
Proof.
  revert l. induction n as [| n IH]; intros l H; [constructor |].
  destruct l as [| a l]; [constructor |]. simpl.
  inversion H as [| ? ? Hl Ha]; subst. constructor; [now apply IH |].
  rewrite Forall_forall in Ha |- *. intros x Hx. apply Ha.
  now apply in_firstn in Hx.
Qed.

Lemma StronglySorted_window {A : Type} (R : A -> A -> Prop) (s n : Z)
    (l : list A) :
  StronglySorted R l -> StronglySorted R (Cursor.window s n l).
Proof.
  intros H. unfold Cursor.window. apply (StronglySorted_skipn R (Z.to_nat s)) in H.
  destruct (n =? 0); [assumption |].
  destruct (0 <? n); now apply StronglySorted_firstn.
Qed.

Lemma in_reviews_of (st : Store) (s : string) (x : Stamped Review) :
  In x (reviews_of st s) <-> In x (reviews st) /\ review_sku (data x) = s.
Proof.
  unfold reviews_of. now rewrite filter_In, String.eqb_eq.
Qed.

(** X6.  Whatever the page and page size, when [get_reviews] returns, its items
    are reviews of the SKU held by the store, most recent first, and its
    total is the number of reviews of the SKU. *)
Theorem get_reviews_any_page (st : Store) (s : string) (pg size_ : Z)
    (r : ReviewPage) :
  get_reviews (Some st) s pg size_ = Return r ->
  (forall x, In x (review_items r) ->
             In x (reviews st) /\ review_sku (data x) = s) /\
  descending (review_items r) /\
  review_total r = Z.of_nat (List.length (reviews_of st s)).
Proof.
  intros Hcall. rewrite get_reviews_outcome in Hcall.
  apply page_outcome_return_inv in Hcall. destruct Hcall as [Hr _].
  injection Hr as <-. cbn [review_items review_total].
  split; [| split].
  - intros x Hx. apply in_reviews_of. apply in_window in Hx.
    now apply (Permutation_in _ (sorted_reviews_perm st s)) in Hx.
  - unfold descending. apply StronglySorted_window.
    apply sorted_reviews_descending.
  - reflexivity.
Qed.

Lemma get_reviews_any_page_witness :
  (forall x, In x [a_review "P" "third" 30; a_review "P" "second" 20;
                   a_review "P" "first" 10] ->
             In x (reviews fixture) /\ review_sku (data x) = "P") /\
  descending [a_review "P" "third" 30; a_review "P" "second" 20;
              a_review "P" "first" 10] /\
  3 = Z.of_nat (List.length (reviews_of fixture "P")).
Proof.
  apply (get_reviews_any_page fixture "P" 1 0
           (mkReviewPage [a_review "P" "third" 30; a_review "P" "second" 20;
                          a_review "P" "first" 10] 3)).
  reflexivity.
Defined.

(** X7.  [get_reviews] never consults the catalogue: for a SKU without
    reviews, be it the SKU of a product or of none, it returns the empty
    page with total 0 and no NotFound, for an offset that is not negative
    and fits 8 bytes as the size does. *)
Theorem get_reviews_none (st : Store) (s : string) (pg size_ : Z) :
  (forall x, In x (reviews st) -> review_sku (data x) <> s) ->
  0 <= (pg - 1) * size_ <= Cursor.max_int64 ->
  Z.abs size_ <= Cursor.max_int64 ->
  get_reviews (Some st) s pg size_ = Return (mkReviewPage [] 0).
Proof.
  intros Hnone Hoff Hsize. rewrite get_reviews_outcome.
  rewrite page_outcome_returns by assumption.
  assert (Hfind : find review_holds [review_sku_is s] (review st) = []).
  { destruct (find review_holds [review_sku_is s] (review st)) as [| d l] eqn:E;
      [reflexivity |].
    assert (Hd : In (fields d) (without_id (find review_holds [review_sku_is s]
                                              (review st))))
      by (rewrite E; left; reflexivity).
    rewrite reviews_of_find in Hd. apply in_reviews_of in Hd.
    destruct Hd as [Hin Hs]. now destruct (Hnone _ Hin). }
  rewrite <- reviews_of_find, Hfind. cbn [sort_created_at_desc fold_right without_id map].
  unfold Cursor.window. rewrite skipn_nil.
  destruct (size_ =? 0); [reflexivity |].
  destruct (0 <? size_); now rewrite firstn_nil.
Qed.

Lemma get_reviews_none_witness :
  get_reviews (Some fixture) "ZZ" 1 10 = Return (mkReviewPage [] 0).
Proof.
  apply (get_reviews_none fixture "ZZ" 1 10);
    [| unfold Cursor.max_int64; lia | unfold Cursor.max_int64; lia].
  intros x Hx. simpl in Hx.
  destruct Hx as [<- | [<- | [<- | [<- | []]]]]; discriminate.
Defined.

(** ** Posting and reading back *)

Lemma post_review_returns (st st' : Store) (now : Z) (s : string) (rv : Review)
    (resp : response) :
  post_review (Some st) now s rv = (Return resp, Some st') ->
  (exists p, In p (products st) /\ sku p = s) /\
  st' = snd (create_document st now (into_review (with_sku rv s))).
Proof.
  unfold post_review.
  destruct (find_one product_holds [sku_is s] (product st)) as [d |] eqn:E;
    [| discriminate].
  intros H. injection H as _ <-. split; [| reflexivity].
  apply find_one_some in E. destruct E as [Hin Hholds].
  apply holds_sku_is in Hholds. exists (fields d). auto.
Qed.

Lemma reviews_of_after_post (st : Store) (now : Z) (s t : string) (rv : Review) :
  reviews_of (snd (create_document st now (into_review (with_sku rv s)))) t =
  (reviews_of st t ++
   if String.eqb s t then [mkStamped (with_sku rv s) now] else [])%list.
Proof.
  unfold reviews_of, reviews, without_id. simpl.
  rewrite map_app, filter_app. simpl.
  destruct (String.eqb s t); reflexivity.
Qed.

(** X8.  A review that [post_review] accepted is read back: it is added at the
    end of the reviews of its SKU, so [get_reviews] counts one more for that
    SKU and lists it on a page that holds them all, and the reviews of every
    other SKU are what they were. *)
Theorem post_review_then_get_reviews (st st' : Store) (now : Z) (s : string)
    (rv : Review) (resp : response) :
  post_review (Some st) now s rv = (Return resp, Some st') ->
  reviews_of st' s = (reviews_of st s ++ [mkStamped (with_sku rv s) now])%list /\
  (forall t, t <> s -> reviews_of st' t = reviews_of st t) /\
  (forall size_ r,
      Z.of_nat (List.length (reviews_of st' s)) <= size_ ->
      get_reviews (Some st') s 1 size_ = Return r ->
      review_total r = Z.of_nat (List.length (reviews_of st s)) + 1 /\
      In (mkStamped (with_sku rv s) now) (review_items r)).
Proof.
  intros Hpost. apply post_review_returns in Hpost. destruct Hpost as [_ ->].
  assert (Hs : reviews_of
                 (snd (create_document st now (into_review (with_sku rv s)))) s
               = (reviews_of st s ++ [mkStamped (with_sku rv s) now])%list).
  { rewrite reviews_of_after_post. now rewrite String.eqb_refl. }
  split; [exact Hs |]. split.
  - intros t Ht. rewrite reviews_of_after_post.
    apply not_eq_sym, String.eqb_neq in Ht. rewrite Ht. apply app_nil_r.
  - intros size_ r Hsize Hcall.
    set (st1 := snd (create_document st now (into_review (with_sku rv s)))) in *.
    assert (Hpos : 0 < size_).
    { rewrite Hs, length_app in Hsize. simpl in Hsize. lia. }
    apply get_reviews_returned in Hcall; [| exact Hpos]. subst r.
    cbn [review_items review_total]. split.
    + rewrite Hs, length_app. simpl. lia.
    + unfold paginate. replace ((1 - 1) * size_) with 0 by lia.
      cbn [Z.to_nat skipn].
      rewrite firstn_all2.
      * apply (Permutation_in (l := reviews_of st1 s)).
        -- rewrite <- reviews_of_find. unfold without_id.
           apply Permutation_map, Permutation_sym, sort_created_at_desc_perm.
        -- rewrite Hs. apply in_or_app. right. now left.
      * unfold without_id. rewrite length_map.
        rewrite (Permutation_length (sort_created_at_desc_perm _)).
        assert (Hlen : List.length (find review_holds [review_sku_is s] (review st1))
                       = List.length (reviews_of st1 s))
          by (rewrite <- reviews_of_find; unfold without_id;
              now rewrite length_map).
        apply Nat.le_trans with (List.length (reviews_of st1 s)); [| lia].
        apply Nat.eq_le_incl. exact Hlen.
Qed.

Lemma post_review_then_get_reviews_witness :
  reviews_of (snd (create_document fixture 40 (into_review (mkReview "P" "t" "b" 4 "me")))) "P"
    = (reviews_of fixture "P" ++ [mkStamped (with_sku (mkReview "x" "t" "b" 4 "me") "P") 40])%list /\
  (forall t, t <> "P" ->
     reviews_of (snd (create_document fixture 40 (into_review (mkReview "P" "t" "b" 4 "me")))) t
       = reviews_of fixture t) /\
  (forall size_ r,
      Z.of_nat (List.length
        (reviews_of (snd (create_document fixture 40
                            (into_review (mkReview "P" "t" "b" 4 "me")))) "P")) <= size_ ->
      get_reviews
        (Some (snd (create_document fixture 40
                      (into_review (mkReview "P" "t" "b" 4 "me"))))) "P" 1 size_
        = Return r ->
      review_total r = Z.of_nat (List.length (reviews_of fixture "P")) + 1 /\
      In (mkStamped (with_sku (mkReview "x" "t" "b" 4 "me") "P") 40) (review_items r)).
Proof.
  apply (post_review_then_get_reviews fixture
           (snd (create_document fixture 40 (into_review (mkReview "P" "t" "b" 4 "me"))))
           40 "P" (mkReview "x" "t" "b" 4 "me") [("status", Str "ok")]).
  reflexivity.
Defined.

Lemma sort_newest_last (l : list (Document (Stamped Review)))
    (n : Document (Stamped Review)) :
  (forall d, In d l -> created_at (fields d) < created_at (fields n)) ->
  sort_created_at_desc (l ++ [n]) = n :: sort_created_at_desc l.
Proof.
  induction l as [| d l IH]; intros Hnew; [reflexivity |].
  simpl. rewrite IH by (intros e He; apply Hnew; now right). simpl.
  assert (Hd : created_at (fields d) < created_at (fields n))
    by (apply Hnew; now left).
  destruct (created_at (fields n) <=? created_at (fields d)) eqn:E;
    [apply Z.leb_le in E; lia | reflexivity].
Qed.

Lemma find_app {A C : Type} (holds : A -> C -> bool) (query : list C)
    (c c' : list (Document A)) :
  find holds query (c ++ c') = (find holds query c ++ find holds query c')%list.
Proof. unfold find. apply filter_app. Qed.

(** X9.  A review posted later than every review its SKU already has comes
    first on the first page that [get_reviews] returns for the SKU, for a
    page size from 1 that fits 8 bytes. *)
Theorem post_review_newest_first (st st' : Store) (now : Z) (s : string)
    (rv : Review) (resp : response) (size_ : Z) :
  post_review (Some st) now s rv = (Return resp, Some st') ->
  (forall x, In x (reviews_of st s) -> created_at x < now) ->
  1 <= size_ <= Cursor.max_int64 ->
  exists r,
    get_reviews (Some st') s 1 size_ = Return r /\
    hd_error (review_items r) = Some (mkStamped (with_sku rv s) now).
Proof.
  intros Hpost Hnew Hsize. apply post_review_returns in Hpost.
  destruct Hpost as [_ ->].
  eexists. split; [apply get_reviews_available; lia |].
  cbn [review_items]. unfold paginate.
  replace ((1 - 1) * size_) with 0 by lia. cbn [Z.to_nat skipn].
  cbn [create_document snd review]. rewrite find_app.
  assert (Hlast : find review_holds [review_sku_is s]
                    [mkDocument (next_id st) (mkStamped (with_sku rv s) now)]
                  = [mkDocument (next_id st) (mkStamped (with_sku rv s) now)]).
  { unfold find. cbn [filter forallb review_holds fields data with_sku review_sku].
    now rewrite String.eqb_refl. }
  rewrite Hlast, sort_newest_last.
  - destruct (Z.to_nat size_) as [| n] eqn:E; [lia | reflexivity].
  - intros d Hd. cbn [fields created_at]. apply Hnew.
    rewrite <- reviews_of_find. apply in_without_id. eauto.
Qed.

Lemma post_review_newest_first_witness :
  exists r,
    get_reviews
      (Some (snd (create_document fixture 40
                    (into_review (mkReview "P" "t" "b" 4 "me"))))) "P" 1 2
      = Return r /\
    hd_error (review_items r)
      = Some (mkStamped (with_sku (mkReview "x" "t" "b" 4 "me") "P") 40).
Proof.
  apply (post_review_newest_first fixture
           (snd (create_document fixture 40 (into_review (mkReview "P" "t" "b" 4 "me"))))
           40 "P" (mkReview "x" "t" "b" 4 "me") [("status", Str "ok")] 2).
  - reflexivity.
  - intros x Hx. simpl in Hx.
    destruct Hx as [<- | [<- | [<- | []]]]; simpl; lia.
  - unfold Cursor.max_int64. lia.
Defined.

(** X10.  [post_review] and [get_product] test the SKU alike: on the same store
    one answers NotFound exactly when the other does, which is exactly when
    no product has the SKU. *)
Theorem post_review_get_product_agree (st : Store) (now : Z) (s : string)
    (rv : Review) :
  (fst (post_review (Some st) now s rv) = Raise NotFound <->
   get_product (Some st) s = Raise NotFound) /\
  (get_product (Some st) s = Raise NotFound <->
   forall p, In p (products st) -> sku p <> s).
Proof.
  unfold post_review, get_product.
  destruct (find_one product_holds [sku_is s] (product st)) as [d |] eqn:E.
  - apply find_one_some in E. destruct E as [Hin Hholds].
    apply holds_sku_is in Hholds. simpl.
    split; split; try discriminate.
    intros Hnone. now destruct (Hnone _ Hin).
  - simpl. split; [split; intros _; reflexivity |]. split; [| reflexivity].
    intros _ p Hp Hs. rewrite find_one_none in E. specialize (E p Hp).
    apply holds_sku_is in Hs. congruence.
Qed.

(** X11.  The SKU of the body is required by the [Review] model although the
    handler overwrites it: a body without [sku] is refused before the store
    is touched, and two validated bodies that differ in their [sku] only have
    the same effect. *)
Theorem review_body_sku_required_and_ignored (db : option Store) (now : Z)
    (s : string) :
  (forall body,
      in_review_sku body = None ->
      refused db (post_review_route db now s body)) /\
  (forall rv rv',
      review_title rv = review_title rv' ->
      review_body rv = review_body rv' ->
      rating rv = rating rv' ->
      author rv = author rv' ->
      post_review db now s rv = post_review db now s rv').
Proof.
  split.
  - intros body Hsku. unfold post_review_route.
    apply refused_when_invalid; [apply validate_Review_outcome |].
    intros rv Hrv. unfold validate_Review in Hrv. rewrite Hsku in Hrv.
    discriminate.
  - intros rv rv' Ht Hb Hr Ha. unfold post_review, with_sku.
    now rewrite Ht, Hb, Hr, Ha.
Qed.

(** ** What validation accepts *)

Lemma present_some {A : Type} (v : option A) (a : A) : v = Some a -> present v.
Proof. intros ->. discriminate. Qed.

Lemma validate_Review_ok (b : ReviewBody) (rv : Review) :
  validate_Review b = Return rv -> Review_ok b.
Proof.
  intros H. pose proof (validate_Review_sound b rv H) as [Hr Hrange].
  unfold validate_Review in H. invert_bind H.
  apply required_inv in E, E0, E1, E4.
  unfold Review_ok. repeat split; try (eapply present_some; eassumption).
  exists (rating rv). auto.
Qed.

Lemma validate_Address_ok (b : AddressBody) (a : Address) :
  validate_Address b = Return a -> Address_ok b.
Proof.
  unfold validate_Address. intros H. invert_bind H.
  apply required_inv in E, E0, E1, E2.
  unfold Address_ok. repeat split; eapply present_some; eassumption.
Qed.

Lemma validate_OrderItem_ok (b : OrderItemBody) (it : OrderItem) :
  validate_OrderItem b = Return it -> OrderItem_ok b.
Proof.
  intros H. pose proof (validate_OrderItem_sound b it H) as [Hq Hle].
  unfold validate_OrderItem in H. invert_bind H.
  apply required_inv in E, E0, E3.
  unfold OrderItem_ok. repeat split; try (eapply present_some; eassumption).
  exists (qty it). auto.
Qed.

(** One step of a successful run of binds, with chosen names. *)
Ltac step_bind H x E :=
  match type of H with
  | bind ?m _ = Return _ =>
      destruct m as [x |] eqn:E; cbn [bind] in H;
      [| discriminate H]
  end.

Lemma validate_Order_ok (b : OrderBody) (o : Order) :
  validate_Order b = Return o -> Order_ok b.
Proof.
  intros H. pose proof (validate_Order_sound b o H) as [_ Hpm].
  unfold validate_Order in H.
  step_bind H e Ee. step_bind H sb Esb. step_bind H sa Esa.
  step_bind H bl Ebl. step_bind H ib Eib. step_bind H its Eits.
  step_bind H t Et.
  apply required_inv in Ee, Esb, Eib, Et.
  unfold Order_ok. split; [| split; [| split; [| split; [| split]]]].
  - eapply present_some; eassumption.
  - exists sb. split; [exact Esb |]. eapply validate_Address_ok; eassumption.
  - intros bb Hbb. rewrite Hbb in Ebl. step_bind Ebl ba Eba.
    eapply validate_Address_ok; eassumption.
  - exists ib. split; [exact Eib |]. apply Forall_forall. intros x Hx.
    destruct (collect_each _ _ _ Eits x Hx) as [it Hit].
    eapply validate_OrderItem_ok; eassumption.
  - eapply present_some; eassumption.
  - exact Hpm.
Qed.

(** X12.  A body passes its model exactly when it satisfies every declared
    constraint: each required key present, the rating from 1 to 5, each
    quantity at least 1, the payment method one of its literals.  So a
    missing key is refused like a value out of bounds. *)
Theorem validation_accepts_exactly (rbody : ReviewBody) (obody : OrderBody) :
  ((exists rv, validate_Review rbody = Return rv) <-> Review_ok rbody) /\
  ((exists o, validate_Order obody = Return o) <-> Order_ok obody) /\
  (~ Review_ok rbody -> InvalidInput (validate_Review rbody)) /\
  (~ Order_ok obody -> InvalidInput (validate_Order obody)).
Proof.
  split; [| split; [| split]].
  - split; [| apply validate_Review_complete].
    intros [rv Hrv]. exact (validate_Review_ok rbody rv Hrv).
  - split; [| apply validate_Order_complete].
    intros [o Ho]. exact (validate_Order_ok obody o Ho).
  - intros Hbad.
    apply invalid_when_not_accepted; [apply validate_Review_outcome |].
    intros rv Hrv. eauto using validate_Review_ok.
  - intros Hbad.
    apply invalid_when_not_accepted; [apply validate_Order_outcome |].
    intros o Ho. eauto using validate_Order_ok.
Qed.

(** ** What the writes keep *)

Lemma validate_Order_result (b : OrderBody) (o : Order) :
  validate_Order b = Return o ->
  (forall it, In it (items o) -> 1 <= qty it) /\
  In (payment_method o) PaymentMethod.
Proof.
  unfold validate_Order. intros H. invert_bind H. injection H as <-.
  apply check_inv in E6. cbn [items payment_method]. split.
  - intros it Hit. apply collect_returns in E4. destruct E4 as [_ Hin].
    destruct (Hin it Hit) as [ib [_ Hib]].
    now apply validate_OrderItem_sound in Hib.
  - now apply in_list_In.
Qed.

Lemma reviews_sound_after_post (st : Store) (now : Z) (s : string) (rv : Review) :
  reviews_sound st -> 1 <= rating rv <= 5 ->
  (exists p, In p (products st) /\ sku p = s) ->
  reviews_sound (snd (create_document st now (into_review (with_sku rv s)))).
Proof.
  intros Hrev Hrange Hknown x Hx.
  unfold reviews, without_id in Hx. cbn [create_document snd review] in Hx.
  rewrite map_app in Hx. apply in_app_or in Hx.
  destruct Hx as [Hx | [<- | []]]; [exact (Hrev x Hx) |].
  cbn [fields data with_sku rating review_sku]. split; [exact Hrange |].
  exact Hknown.
Qed.

Lemma orders_sound_after_checkout (st : Store) (now : Z) (o : Order) :
  orders_sound st ->
  (forall it, In it (items o) -> 1 <= qty it) ->
  In (payment_method o) PaymentMethod ->
  orders_sound (snd (create_document st now (into_order o))).
Proof.
  intros Hord Hqty Hpay x Hx.
  unfold orders, without_id in Hx. cbn [create_document snd order] in Hx.
  rewrite map_app in Hx. apply in_app_or in Hx.
  destruct Hx as [Hx | [<- | []]]; [exact (Hord x Hx) |].
  cbn [fields data]. auto.
Qed.

Lemma after_write_sound (st : Store) (w : write) :
  reviews_sound st -> orders_sound st ->
  exists st',
    after_write (Some st) w = Some st' /\
    reviews_sound st' /\ orders_sound st' /\
    product st' = product st /\ sparepart st' = sparepart st.
Proof.
  intros Hrev Hord. destruct w as [now s body | now body]; cbn [after_write].
  - unfold post_review_route.
    destruct (validate_Review body) as [rv | e] eqn:Hv; cbn [validated snd];
      [| exists st; auto].
    unfold post_review.
    destruct (find_one product_holds [sku_is s] (product st)) as [d |] eqn:E;
      [| exists st; auto].
    apply find_one_some in E. destruct E as [Hin Hholds].
    apply holds_sku_is in Hholds.
    exists (snd (create_document st now (into_review (with_sku rv s)))).
    split; [reflexivity |]. split; [| split; [| split; reflexivity]].
    + apply reviews_sound_after_post; [assumption | |].
      * now apply validate_Review_sound in Hv.
      * exists (fields d). auto.
    + exact Hord.
  - unfold checkout_route.
    destruct (validate_Order body) as [o | e] eqn:Hv; cbn [validated snd];
      [| exists st; auto].
    unfold checkout.
    exists (snd (create_document st now (into_order o))).
    split; [reflexivity |]. split; [| split; [| split; reflexivity]].
    + exact Hrev.
    + apply validate_Order_result in Hv. destruct Hv as [Hqty Hpay].
      now apply orders_sound_after_checkout.
Qed.

(** X13.  Whatever series of review posts and checkouts reaches the routes, valid
    or not, the store stays available, the product and spare-part
    collections stay as they were, every stored review keeps a rating from 1
    to 5 and the SKU of a catalogue product, and every stored order keeps
    quantities of at least 1 and a declared payment method. *)
Theorem writes_keep_store_sound (st : Store) (ws : list write) :
  reviews_sound st -> orders_sound st ->
  exists st',
    after_writes (Some st) ws = Some st' /\
    reviews_sound st' /\ orders_sound st' /\
    product st' = product st /\ sparepart st' = sparepart st.
Proof.
  revert st. induction ws as [| w ws IH]; intros st Hrev Hord.
  - exists st. auto.
  - destruct (after_write_sound st w Hrev Hord)
      as (st1 & Hstep & Hrev1 & Hord1 & Hp1 & Hs1).
    destruct (IH st1 Hrev1 Hord1) as (st' & Hrun & Hrev' & Hord' & Hp' & Hs').
    exists st'. split.
    { unfold after_writes in *. cbn [fold_left]. now rewrite Hstep. }
    split; [exact Hrev' |]. split; [exact Hord' |]. split; congruence.
Qed.

Lemma writes_keep_store_sound_witness :
  exists st',
    after_writes (Some seeded)
      [POST_review 5 "HY2000i"
         (mkReviewBody (Some "x") (Some "t") (Some "b") (Some 5) (Some "me"));
       POST_review 6 "HY2000i"
         (mkReviewBody (Some "x") (Some "t") (Some "b") (Some 9) (Some "me"))]
      = Some st' /\
    reviews_sound st' /\ orders_sound st' /\
    product st' = product seeded /\ sparepart st' = sparepart seeded.
Proof.
  apply (writes_keep_store_sound seeded); intros x [].
Defined.

(** ** The store unavailable *)

(** X14.  Without a store the requests are still validated first: [search] refuses
    a query of a bad length and else returns no suggestion, and the write
    routes refuse a body that breaks its model and else answer 500; nothing
    makes a store appear. *)
Theorem store_unavailable (now : Z) (s q : string) (limit : Z)
    (rbody : ReviewBody) (obody : OrderBody) :
  (search None q limit =
     if ((1 <=? String.length q)%nat && (String.length q <=? 60)%nat)%bool
     then Return [] else Raise (RequestValidationError "q")) /\
  (Review_ok rbody ->
   post_review_route None now s rbody = (Raise StoreUnavailable, None)) /\
  (~ Review_ok rbody -> refused None (post_review_route None now s rbody)) /\
  (Order_ok obody ->
   checkout_route None now obody = (Raise StoreUnavailable, None)) /\
  (~ Order_ok obody -> refused None (checkout_route None now obody)) /\
  get_product None s = Raise StoreUnavailable.
Proof.
  repeat apply conj.
  - unfold search, check.
    destruct ((1 <=? String.length q)%nat && (String.length q <=? 60)%nat);
      reflexivity.
  - intros Hok. destruct (validate_Review_complete rbody Hok) as [rv Hrv].
    unfold post_review_route. now rewrite Hrv.
  - intros Hbad. unfold post_review_route.
    apply refused_when_invalid; [apply validate_Review_outcome |].
    intros rv Hrv. apply Hbad. now apply (validate_Review_ok rbody rv).
  - intros Hok. destruct (validate_Order_complete obody Hok) as [o Ho].
    unfold checkout_route. now rewrite Ho.
  - intros Hbad. unfold checkout_route.
    apply refused_when_invalid; [apply validate_Order_outcome |].
    intros o Ho. apply Hbad. now apply (validate_Order_ok obody o).
  - reflexivity.
Qed.

(** ** Search, for every limit *)

Lemma collect_raises {A B : Type} (f : A -> result B) (l : list A) (e : exn) :
  collect f l = Raise e -> exists a, In a l /\ f a = Raise e.
Proof.
  induction l as [| a l IH]; simpl; [discriminate |].
  destruct (f a) as [b | e'] eqn:Ea; cbn [bind].
  - destruct (collect f l) as [bs | e']; cbn [bind]; try discriminate.
    intros H. destruct (IH H) as [x [Hx Hfx]]. eauto.
  - intros [= <-]. eauto.
Qed.

Lemma collect_one_raises {A B : Type} (f : A -> result B) (l : list A) (e : exn) :
  (forall x, In x l -> f x = Raise e \/ exists b, f x = Return b) ->
  (exists a, In a l /\ f a = Raise e) ->
  collect f l = Raise e.
Proof.
  induction l as [| a l IH]; intros Hall [x [Hx Hfx]]; [contradiction |].
  simpl. destruct (Hall a (or_introl eq_refl)) as [Ha | [b Ha]]; rewrite Ha;
    cbn [bind]; [reflexivity |].
  destruct Hx as [-> | Hx]; [congruence |].
  rewrite IH; [reflexivity | | eauto].
  intros y Hy. apply Hall. now right.
Qed.

Lemma window_first_matches (st : Store) (test : string -> bool) (limit : Z) :
  0 <= limit ->
  Cursor.window 0 limit (title_matches st test) = first_matches st test limit.
Proof.
  intros Hl. unfold Cursor.window, first_matches. cbn [Z.to_nat skipn].
  destruct (limit =? 0) eqn:E; [reflexivity |]. apply Z.eqb_neq in E.
  destruct (0 <? limit) eqn:E'; [reflexivity | apply Z.ltb_ge in E'; lia].
Qed.

(** X15.  When [search] returns for a limit that is not negative, the store
    has accepted the query as a pattern, and the records are the suggestion
    records, the image in normal form, of the catalogue products whose title
    passes its test, in store order: all of them when the limit is 0, else
    the first [limit] of them. *)
Theorem search_returns_first_matches (st : Store) (q : string) (limit : Z)
    (out : list SearchSuggestion) :
  0 <= limit ->
  search (Some st) q limit = Return out ->
  exists test,
    regex_i q = Some test /\
    out = map suggestion_of
            (if limit =? 0 then title_matches st test
             else firstn (Z.to_nat limit) (title_matches st test)).
Proof.
  intros Hl Hcall. rewrite search_outcome in Hcall.
  destruct (check "q" _); cbn [bind] in Hcall; try discriminate.
  destruct (Cursor.int64 (Z.abs limit)); try discriminate.
  destruct (regex_i q) as [test |]; try discriminate.
  exists test. split; [reflexivity |].
  rewrite window_first_matches in Hcall by assumption.
  apply (collect_map suggestion suggestion_of) in Hcall;
    [| apply suggestion_returns].
  exact Hcall.
Qed.

(** X16.  How [search] fails on an available store, for a limit that is not
    negative: with 422 exactly when the query is empty or longer than 60
    characters; otherwise with pymongo's [OverflowError] exactly when the
    limit does not fit 8 bytes; otherwise with the store's
    [OperationFailure] exactly when the store refuses the query as a
    pattern; otherwise with a [ValidationError], and no partial list,
    exactly when one of the matches within the limit has a first image that
    is no URL. *)
Theorem search_failures (st : Store) (q : string) (limit : Z) (e : exn) :
  0 <= limit ->
  (search (Some st) q limit = Raise e <->
   ((String.length q < 1 \/ 60 < String.length q)%nat /\
    e = RequestValidationError "q") \/
   ((1 <= String.length q <= 60)%nat /\
    Cursor.max_int64 < limit /\ e = OverflowError) \/
   ((1 <= String.length q <= 60)%nat /\
    limit <= Cursor.max_int64 /\ regex_i q = None /\ e = OperationFailure) \/
   ((1 <= String.length q <= 60)%nat /\
    limit <= Cursor.max_int64 /\ e = ValidationError "image" /\
    exists test p u,
      regex_i q = Some test /\
      In p (first_matches st test limit) /\
      first_image_or_absent p = Some u /\ HttpUrl u = None)).
Proof.
  intros Hl. rewrite search_outcome. unfold check.
  destruct ((1 <=? String.length q)%nat && (String.length q <=? 60)%nat) eqn:El;
    cbn [bind].
  - apply andb_true_iff in El. destruct El as [Hlo Hhi].
    apply Nat.leb_le in Hlo, Hhi.
    destruct (Cursor.int64 (Z.abs limit)) eqn:Ei.
    + apply int64_iff in Ei. rewrite Z.abs_eq in Ei by assumption.
      destruct (regex_i q) as [test |] eqn:Eq.
      * rewrite window_first_matches by assumption. split.
        -- intros H. apply collect_raises in H. destruct H as [p [Hp Hraise]].
           apply suggestion_raises in Hraise.
           destruct Hraise as [-> [u [Hu Hf]]].
           right. right. right. repeat split; auto. exists test, p, u. auto.
        -- intros [[Hlen _] | [(_ & Hbig & _) | [(_ & _ & Hnone & _) |
                    (_ & _ & -> & test' & p & u & Ht & Hp & Hu & Hf)]]];
             [lia | lia | discriminate |].
           injection Ht as <-. apply collect_one_raises.
           ++ intros x _. destruct (suggestion x) as [b | e'] eqn:Ex; [eauto |].
              left. f_equal. apply suggestion_raises in Ex. tauto.
           ++ exists p. split; [exact Hp |].
              unfold suggestion. rewrite first_image_spec, Hu, Hf. reflexivity.
      * split.
        -- intros [= <-]. right. right. left. auto.
        -- intros [[Hlen _] | [(_ & Hbig & _) | [(_ & _ & _ & ->) |
                    (_ & _ & _ & test' & p & u & Ht & _)]]];
             [lia | lia | reflexivity | discriminate].
    + assert (Hbig : Cursor.max_int64 < limit).
      { destruct (Z.le_gt_cases limit Cursor.max_int64) as [H | H]; [| exact H].
        assert (Ht : Cursor.int64 (Z.abs limit) = true)
          by (apply int64_iff; lia).
        congruence. }
      split.
      * intros [= <-]. right. left. auto.
      * intros [[Hlen _] | [(_ & _ & ->) | [(_ & Hfit & _) | (_ & Hfit & _)]]];
          [lia | reflexivity | lia | lia].
  - apply andb_false_iff in El. split.
    + intros [= <-]. left. split; [| reflexivity].
      destruct El as [E | E]; apply Nat.leb_gt in E; lia.
    + intros [[_ ->] | [[[Hlo Hhi] _] | [[[Hlo Hhi] _] | [[Hlo Hhi] _]]]];
        [reflexivity | | |];
        destruct El as [E | E]; apply Nat.leb_gt in E; lia.
Qed.

(** ** Spare parts and product detail, further *)

(** X17.  The two filters of [spares_for] combine by intersection: when the call
    with both returns, so does the call with each alone, and a spare part is
    in the result of both exactly when it is in the result of each. *)
Theorem spares_for_intersect (st : Store) (sku_f q : option string)
    (out : list SparePart) :
  spares_for (Some st) sku_f q = Return out ->
  exists by_sku by_title,
    spares_for (Some st) sku_f None = Return by_sku /\
    spares_for (Some st) None q = Return by_title /\
    forall s, In s out <-> In s by_sku /\ In s by_title.
Proof.
  rewrite !spares_for_outcome. intros Hcall.
  destruct (regex_entry q spare_title_regex_i) as [entries | e] eqn:Eq;
    cbn [bind] in Hcall |- *; try discriminate.
  injection Hcall as <-. eexists. eexists.
  split; [reflexivity |]. split; [reflexivity |].
  intros s. cbn [regex_entry entry_if app bind]. rewrite !in_find, app_nil_r.
  rewrite forallb_app, andb_true_iff. tauto.
Qed.

Lemma NoDup_map_inj {A B : Type} (f : A -> B) (l : list A) (x y : A) :
  NoDup (map f l) -> In x l -> In y l -> f x = f y -> x = y.
Proof.
  induction l as [| a l IH]; simpl; [contradiction |].
  intros Hnd Hx Hy Heq. inversion Hnd as [| ? ? Hnotin Hnd']; subst.
  destruct Hx as [-> | Hx], Hy as [-> | Hy]; auto.
  - exfalso. apply Hnotin. rewrite Heq. now apply in_map.
  - exfalso. apply Hnotin. rewrite <- Heq. now apply in_map.
Qed.

(** X18.  Looking a product up by its own SKU returns that product when SKUs are
    unique in the catalogue (the first holder of the SKU, in store order,
    otherwise). *)
Theorem get_product_by_own_sku (st : Store) (p : Product) :
  In p (products st) ->
  exists r,
    get_product (Some st) (sku p) = Return r /\
    sku (detail r) = sku p /\
    hd_error (filter (fun x => String.eqb (sku x) (sku p)) (products st))
      = Some (detail r) /\
    (NoDup (map sku (products st)) -> detail r = p).
Proof.
  intros Hp. unfold get_product.
  destruct (find_one product_holds [sku_is (sku p)] (product st)) as [d |] eqn:E.
  - pose proof (find_one_some _ _ _ _ E) as [Hin Hholds].
    apply holds_sku_is in Hholds.
    eexists. split; [reflexivity |]. cbn [detail]. split; [exact Hholds |].
    split.
    + unfold find_one in E. unfold products.
      assert (Hf : without_id (find product_holds [sku_is (sku p)] (product st))
                   = filter (fun x => String.eqb (sku x) (sku p))
                       (without_id (product st))).
      { rewrite without_id_find. apply filter_ext. intros x. simpl.
        apply andb_true_r. }
      rewrite <- Hf. unfold without_id.
      destruct (find product_holds [sku_is (sku p)] (product st)) as [| d0 l];
        [discriminate |].
      injection E as ->. reflexivity.
    + intros Hnd. now apply (NoDup_map_inj sku (products st)).
  - exfalso. rewrite find_one_none in E. specialize (E p Hp).
    assert (Ht : forallb (product_holds p) [sku_is (sku p)] = true)
      by now apply holds_sku_is.
    congruence.
Qed.

Lemma get_product_by_own_sku_witness :
  exists r,
    get_product (Some seeded) (sku JCB_18V_IMPACT) = Return r /\
    sku (detail r) = sku JCB_18V_IMPACT /\
    hd_error (filter (fun x => String.eqb (sku x) (sku JCB_18V_IMPACT))
                (products seeded)) = Some (detail r) /\
    (NoDup (map sku (products seeded)) -> detail r = JCB_18V_IMPACT).
Proof.
  apply (get_product_by_own_sku seeded JCB_18V_IMPACT).
  simpl. right. left. reflexivity.
Defined.

(** X19.  What [get_product] attaches depends on the listed SKUs as a set only:
    repeating a SKU or listing the SKUs in another order changes nothing,
    and the items come in catalogue order. *)
Theorem attach_same_skus (st : Store) (skus skus' : list string) :
  skus <> [] -> skus' <> [] ->
  (forall s, In s skus <-> In s skus') ->
  attach st skus = attach st skus' /\
  attach st skus =
    Some (map summary (filter (fun p => in_list (sku p) skus) (products st))).
Proof.
  intros Hne Hne' Hsame.
  assert (Hshape : forall l, l <> [] ->
            attach st l =
            Some (map summary (filter (fun p => in_list (sku p) l) (products st)))).
  { intros l Hl. destruct l as [| a l]; [contradiction |].
    unfold attach. rewrite without_id_find. fold (products st).
    do 2 f_equal. apply filter_ext. intros p.
    cbn [forallb product_holds]. apply andb_true_r. }
  split; [| now apply Hshape].
  rewrite !Hshape by assumption. do 2 f_equal. apply filter_ext. intros p.
  destruct (in_list (sku p) skus) eqn:E, (in_list (sku p) skus') eqn:E';
    try reflexivity.
  - apply in_list_In, Hsame, in_list_In in E. congruence.
  - apply in_list_In, Hsame, in_list_In in E'. congruence.
Qed.

Lemma attach_same_skus_witness :
  attach fixture ["A"; "B"] = attach fixture ["B"; "A"; "A"] /\
  attach fixture ["A"; "B"] =
    Some (map summary (filter (fun p => in_list (sku p) ["A"; "B"])
                         (products fixture))).
Proof.
  apply (attach_same_skus fixture ["A"; "B"] ["B"; "A"; "A"]);
    [discriminate | discriminate |].
  clear HttpUrl regex_i. intros s. simpl. tauto.
Defined.

(** ** Dumping and validating again *)

Lemma check_true (loc : string) (ok : bool) : ok = true -> check loc ok = Return tt.
Proof. now intros ->. Qed.

Lemma check_inv_tt (loc : string) (ok : bool) (u : unit) :
  check loc ok = Return u -> check loc ok = Return tt.
Proof. destruct ok; simpl; [reflexivity | discriminate]. Qed.

Lemma validate_Review_dump (r : Review) :
  1 <= rating r <= 5 -> validate_Review (model_dump_Review r) = Return r.
Proof.
  intros Hr. unfold validate_Review, model_dump_Review. cbn [bind required
    in_review_sku in_review_title in_review_body in_rating in_author].
  rewrite check_true by (apply andb_true_iff; split; apply Z.leb_le; lia).
  cbn [bind]. now destruct r.
Qed.

Lemma validate_Address_dump (a : Address) :
  validate_Address (model_dump_Address a) = Return a.
Proof. now destruct a. Qed.

Lemma validate_OrderItem_dump (it : OrderItem) :
  1 <= qty it -> validate_OrderItem (model_dump_OrderItem it) = Return it.
Proof.
  intros Hq. unfold validate_OrderItem, model_dump_OrderItem. cbn [bind required
    in_item_sku in_item_title in_qty in_unit_price_inc_vat].
  rewrite check_true by (apply Z.leb_le; lia).
  cbn [bind]. now destruct it.
Qed.

Lemma collect_dump (its : list OrderItem) :
  (forall it, In it its -> 1 <= qty it) ->
  collect validate_OrderItem (map model_dump_OrderItem its) = Return its.
Proof.
  induction its as [| it its IH]; intros Hq; [reflexivity |].
  cbn [map collect]. rewrite validate_OrderItem_dump by (apply Hq; now left).
  cbn [bind]. rewrite IH by (intros x Hx; apply Hq; now right). reflexivity.
Qed.

Lemma validate_Order_dump (o : Order) :
  (forall it, In it (items o) -> 1 <= qty it) ->
  In (payment_method o) PaymentMethod ->
  validate_Order (model_dump_Order o) = Return o.
Proof.
  intros Hq Hpm. unfold validate_Order, model_dump_Order. cbn [bind required
    default in_email in_phone in_shipping_address in_billing_address in_items
    in_total_inc_vat in_payment_method].
  rewrite validate_Address_dump. cbn [bind].
  assert (Hb : match option_map model_dump_Address (billing_address o) with
               | Some bb => a <- validate_Address bb ;; Return (Some a)
               | None => Return None
               end = Return (billing_address o)).
  { destruct (billing_address o) as [a |]; [| reflexivity].
    cbn [option_map]. now rewrite validate_Address_dump. }
  rewrite Hb. cbn [bind]. rewrite collect_dump by assumption. cbn [bind].
  rewrite check_true by now apply in_list_In.
  cbn [bind]. now destruct o.
Qed.

(** X20.  Validation is idempotent on the write bodies: what [validate_Review] or
    [validate_Order] returned, dumped with [model_dump] and validated again,
    comes back unchanged; and a dumped review or order passes exactly when it
    satisfies the bounds and literals of its model. *)
Theorem validate_dump_round_trip (rbody : ReviewBody) (obody : OrderBody)
    (r : Review) (o : Order) :
  (validate_Review rbody = Return r ->
   validate_Review (model_dump_Review r) = Return r) /\
  (validate_Order obody = Return o ->
   validate_Order (model_dump_Order o) = Return o) /\
  (validate_Review (model_dump_Review r) = Return r <-> 1 <= rating r <= 5) /\
  (validate_Order (model_dump_Order o) = Return o <->
   (forall it, In it (items o) -> 1 <= qty it) /\
   In (payment_method o) PaymentMethod).
Proof.
  split; [| split; [| split]].
  - intros H. apply validate_Review_dump. now apply validate_Review_sound in H.
  - intros H. apply validate_Order_result in H. now apply validate_Order_dump.
  - split; [| apply validate_Review_dump].
    intros H. now apply validate_Review_sound in H.
  - split; [apply validate_Order_result |].
    intros [Hq Hpm]. now apply validate_Order_dump.
Qed.

Lemma validate_PriceInfo_dump (b : PriceInfoBody) (p : PriceInfo) :
  validate_PriceInfo b = Return p ->
  validate_PriceInfo (model_dump_PriceInfo p) = Return p.
Proof.
  unfold validate_PriceInfo. intros H.
  step_bind H i Ei. step_bind H u1 Ci. step_bind H e Ee. step_bind H u2 Ce.
  step_bind H u3 Cc. injection H as <-.
  cbn [model_dump_PriceInfo bind required default in_inc_vat in_ex_vat
    in_currency in_finance_available inc_vat ex_vat currency finance_available].
  rewrite (check_inv_tt _ _ _ Ci), (check_inv_tt _ _ _ Ce). cbn [bind].
  apply check_inv in Cc. rewrite check_true by exact Cc. reflexivity.
Qed.

Lemma url_again (loc : string) (u normal : string) :
  normal_form_is_kept ->
  url loc u = Return normal -> url loc normal = Return normal.
Proof.
  intros Hkept. unfold url. destruct (HttpUrl u) as [n |] eqn:E; [| discriminate].
  intros [= <-]. now rewrite (Hkept u n E).
Qed.

Lemma optional_url_again (loc : string) (v r : option string) :
  normal_form_is_kept ->
  optional_url loc v = Return r -> optional_url loc r = Return r.
Proof.
  intros Hkept. unfold optional_url. destruct v as [u |].
  - destruct (url loc u) as [normal | e] eqn:E; cbn [bind]; [| discriminate].
    intros [= <-]. now rewrite (url_again loc u normal Hkept E).
  - now intros [= <-].
Qed.

Lemma collect_url_again (loc : string) (l out : list string) :
  normal_form_is_kept ->
  collect (url loc) l = Return out -> collect (url loc) out = Return out.
Proof.
  intros Hkept. revert out. induction l as [| u l IH]; intros out H.
  - now injection H as <-.
  - cbn [collect] in H. step_bind H normal Eu. step_bind H rest Er.
    injection H as <-. cbn [collect].
    rewrite (url_again loc u normal Hkept Eu). cbn [bind].
    now rewrite (IH rest eq_refl).
Qed.

Lemma validate_Media_dump (b : MediaBody) (m : Media) :
  normal_form_is_kept ->
  validate_Media b = Return m ->
  validate_Media (model_dump_Media m) = Return m.
Proof.
  intros Hkept. unfold validate_Media. intros H.
  step_bind H imgs Ei. step_bind H v Ev. step_bind H s Es. injection H as <-.
  cbn [model_dump_Media default in_images in_video_url in_spin_360_url
    images video_url spin_360_url].
  rewrite (collect_url_again _ _ _ Hkept Ei). cbn [bind].
  rewrite (optional_url_again _ _ _ Hkept Ev). cbn [bind].
  rewrite (optional_url_again _ _ _ Hkept Es). reflexivity.
Qed.

(** X21.  Validation is idempotent on the catalogue models too: a
    [PriceInfo] that validation returned, dumped and validated again, comes
    back unchanged, defaults included; so does a [Product], its URLs in
    normal form, given that [HttpUrl] accepts and keeps a URL in normal
    form. *)
Theorem validate_Product_round_trip (pb : PriceInfoBody) (b : ProductBody)
    (pr : PriceInfo) (p : Product) :
  (validate_PriceInfo pb = Return pr ->
   validate_PriceInfo (model_dump_PriceInfo pr) = Return pr) /\
  (normal_form_is_kept ->
   validate_Product b = Return p ->
   validate_Product (model_dump_Product p) = Return p).
Proof.
  split; [apply validate_PriceInfo_dump |].
  intros Hkept. unfold validate_Product. intros H.
  step_bind H s Es. step_bind H t Et. step_bind H br Ebr. step_bind H c Ec.
  step_bind H u1 Cps. step_bind H u2 Cw. step_bind H pb' Epb.
  step_bind H pi Epi. step_bind H m Em. injection H as <-.
  cbn [model_dump_Product bind required default option_map in_sku in_title
    in_short_bullets in_description in_brand in_category in_power_source
    in_capacity in_size in_weight_kg in_application in_price in_media in_specs
    in_rating_avg in_rating_count in_accessories in_related_skus in_stock
    sku title short_bullets description brand category power_source capacity
    size weight_kg application price media specs rating_avg rating_count
    accessories related_skus stock].
  rewrite (check_inv_tt _ _ _ Cps), (check_inv_tt _ _ _ Cw). cbn [bind].
  rewrite (validate_PriceInfo_dump pb' pi Epi). cbn [bind].
  assert (Hm : validate_Media (model_dump_Media m) = Return m).
  { destruct (in_media b) as [mb |].
    - exact (validate_Media_dump mb m Hkept Em).
    - injection Em as <-. reflexivity. }
  rewrite Hm. reflexivity.
Qed.

(** The URLs of a validated product are in normal form: an image given as
    [u] is stored as the normal form of [u]. *)
Lemma validate_Media_normal (b : MediaBody) (m : Media) :
  validate_Media b = Return m ->
  exists imgs,
    images m = Some imgs /\
    Forall2 (fun u normal => HttpUrl u = Some normal)
      (default [] (in_images b)) imgs.
Proof.
  unfold validate_Media. intros H.
  step_bind H imgs Ei. step_bind H v Ev. step_bind H s Es. injection H as <-.
  exists imgs. split; [reflexivity |].
  revert imgs Ei. induction (default [] (in_images b)) as [| u l IH];
    intros imgs Ei.
  - injection Ei as <-. constructor.
  - cbn [collect] in Ei. step_bind Ei normal Eu. step_bind Ei rest Er.
    injection Ei as <-. constructor; [| now apply IH].
    unfold url in Eu. destruct (HttpUrl u); [congruence | discriminate].
Qed.


End Libraries.
(** ** Seeding *)

Section Upsert.

Variables (A : Type) (key : A -> string) (k : string).
Variables (set : A -> A) (fresh : A).
Hypothesis set_key : forall x, key x = k -> key (set x) = k.
Hypothesis fresh_key : key fresh = k.

Let matches (x : A) : bool := String.eqb (key x) k.

Lemma update_first_none (c : list (Document A)) :
  update_first matches set c = None <->
  forall x, In x (without_id c) -> key x <> k.
Proof.
  induction c as [| d c IH]; simpl.
  - split; [intros _ x [] | reflexivity].
  - unfold matches at 1. destruct (String.eqb (key (fields d)) k) eqn:E.
    + apply String.eqb_eq in E. split; [discriminate |].
      intros H. now destruct (H (fields d) (or_introl eq_refl)).
    + apply String.eqb_neq in E.
      destruct (update_first matches set c) as [c' |].
      * split; [discriminate |]. intros H.
        exfalso. assert (Some c' = None); [| discriminate].
        apply IH. intros x Hx. apply H. now right.
      * split; [| reflexivity]. intros _ x [<- | Hx]; [exact E |].
        now apply (proj1 IH).
Qed.

Lemma update_first_some (c c' : list (Document A)) :
  update_first matches set c = Some c' ->
  map key (without_id c') = map key (without_id c) /\
  (exists old, In old (without_id c) /\ key old = k /\
               In (set old) (without_id c')) /\
  (forall x, key x <> k -> (In x (without_id c') <-> In x (without_id c))).
Proof.
  revert c'. induction c as [| d c IH]; simpl; intros c' H; [discriminate |].
  unfold matches at 1 in H. destruct (String.eqb (key (fields d)) k) eqn:E.
  - apply String.eqb_eq in E. injection H as <-. simpl.
    rewrite (set_key _ E), E. split; [reflexivity |]. split.
    + exists (fields d). auto.
    + intros x Hx. split; intros [Hd | Hin]; auto.
      * exfalso. apply Hx. rewrite <- Hd. now apply set_key.
      * exfalso. apply Hx. now rewrite <- Hd.
  - apply String.eqb_neq in E.
    destruct (update_first matches set c) as [c'' |]; [| discriminate].
    injection H as <-. destruct (IH c'' eq_refl) as (Hk & Hold & Hoth).
    simpl. rewrite Hk. split; [reflexivity |]. split.
    + destruct Hold as (old & Hin & Hkey & Hset). exists old. auto.
    + intros x Hx. specialize (Hoth x Hx). tauto.
Qed.

(** After an upsert under key [k]: a document of that key is there, the
    documents of other keys are untouched, and the keys are those there
    were, with [k] added when it was missing. *)
Lemma upsert_spec (c : list (Document A)) (id : Z) :
  let c' := fst (upsert matches set fresh (c, id)) in
  (exists x, In x (without_id c') /\ key x = k /\
             (x = fresh \/ exists old, In old (without_id c) /\ x = set old)) /\
  (forall x, key x <> k -> (In x (without_id c') <-> In x (without_id c))) /\
  (NoDup (map key (without_id c)) -> NoDup (map key (without_id c'))).
Proof.
  unfold upsert. destruct (update_first matches set c) as [c1 |] eqn:E; simpl.
  - destruct (update_first_some c c1 E) as (Hk & (old & Hin & Hkey & Hset) & Hoth).
    split; [| split; [exact Hoth | now rewrite Hk]].
    exists (set old). split; [exact Hset |]. split; [now apply set_key |].
    right. eauto.
  - rewrite update_first_none in E. unfold without_id. rewrite !map_app. simpl.
    split; [| split].
    + exists fresh. split; [apply in_or_app; right; now left | auto].
    + intros x Hx. rewrite in_app_iff. simpl. split; [| tauto].
      intros [Hin | [<- | []]]; [exact Hin | now destruct Hx].
    + intros Hnd. apply NoDup_app; [exact Hnd | repeat constructor; auto |].
      intros y Hy [<- | []]. apply in_map_iff in Hy.
      destruct Hy as [x [Hkey Hx]]. apply (E x Hx). now rewrite Hkey.
Qed.

End Upsert.

Lemma find_one_any {A C : Type} (holds : A -> C -> bool) (c : list (Document A)) :
  find_one holds [] c = hd_error c.
Proof.
  unfold find_one, find. f_equal. induction c as [| d c IH]; simpl in *;
    [reflexivity | now rewrite IH].
Qed.

Lemma upsert_brand_spec (c : list (Document Brand)) (id : Z) (b : Brand) :
  let c' := fst (upsert_brand (c, id) b) in
  In b (without_id c') /\
  (forall x, brand_slug x <> brand_slug b ->
             (In x (without_id c') <-> In x (without_id c))) /\
  (NoDup (map brand_slug (without_id c)) ->
   NoDup (map brand_slug (without_id c'))).
Proof.
  destruct (upsert_spec Brand brand_slug (brand_slug b) (fun _ => b) b
              (fun _ _ => eq_refl) eq_refl c id)
    as ((x & Hx & _ & Hwhich) & Hoth & Hnd).
  split; [| split; [exact Hoth | exact Hnd]].
  destruct Hwhich as [-> | (old & _ & ->)]; exact Hx.
Qed.

Lemma fold_upsert_brand (bs : list Brand) (c : list (Document Brand)) (id : Z) :
  let c' := fst (fold_left upsert_brand bs (c, id)) in
  (forall x, ~ In (brand_slug x) (map brand_slug bs) ->
             (In x (without_id c') <-> In x (without_id c))) /\
  (NoDup (map brand_slug (without_id c)) ->
   NoDup (map brand_slug (without_id c'))) /\
  (NoDup (map brand_slug bs) -> forall b, In b bs -> In b (without_id c')).
Proof.
  revert c id. induction bs as [| b bs IH]; intros c id; cbn [fold_left].
  - simpl. repeat split; tauto.
  - destruct (upsert_brand (c, id) b) as [c1 id1] eqn:E.
    pose proof (upsert_brand_spec c id b) as (Hin & Hoth & Hnd).
    rewrite E in Hin, Hoth, Hnd. cbn [fst] in Hin, Hoth, Hnd.
    destruct (IH c1 id1) as (Hoth' & Hnd' & Hin'). split; [| split].
    + intros x Hx. simpl in Hx. rewrite Hoth' by tauto. apply Hoth.
      intros Heq. apply Hx. left. now symmetry.
    + auto.
    + intros Hbs b' [<- | Hb']; inversion Hbs as [| ? ? Hnotin Hbs']; subst.
      * apply Hoth'; assumption.
      * now apply Hin'.
Qed.

Lemma upsert_category_spec (c : list (Document Category)) (id : Z)
    (n s : string) :
  let c' := fst (upsert_category (c, id) (n, s)) in
  (exists x, In x (without_id c') /\ category_slug x = s /\
             category_name x = n /\ parent_slug x = None) /\
  (forall x, category_slug x <> s ->
             (In x (without_id c') <-> In x (without_id c))) /\
  (NoDup (map category_slug (without_id c)) ->
   NoDup (map category_slug (without_id c'))).
Proof.
  destruct (upsert_spec Category category_slug s
              (fun old => mkCategory n s None (image_url old))
              (mkCategory n s None None)
              (fun _ _ => eq_refl) eq_refl c id)
    as ((x & Hx & Hs & Hwhich) & Hoth & Hnd).
  split; [| split; [exact Hoth | exact Hnd]].
  exists x. split; [exact Hx |]. split; [exact Hs |].
  destruct Hwhich as [-> | (old & _ & ->)]; auto.
Qed.

Lemma fold_upsert_category (cs : list (string * string))
    (c : list (Document Category)) (id : Z) :
  let c' := fst (fold_left upsert_category cs (c, id)) in
  (forall x, ~ In (category_slug x) (map snd cs) ->
             (In x (without_id c') <-> In x (without_id c))) /\
  (NoDup (map category_slug (without_id c)) ->
   NoDup (map category_slug (without_id c'))) /\
  (NoDup (map snd cs) ->
   forall n s, In (n, s) cs ->
               exists x, In x (without_id c') /\ category_slug x = s /\
                         category_name x = n /\ parent_slug x = None).
Proof.
  revert c id. induction cs as [| [n0 s0] cs IH]; intros c id; cbn [fold_left].
  - simpl. repeat split; tauto.
  - destruct (upsert_category (c, id) (n0, s0)) as [c1 id1] eqn:E.
    pose proof (upsert_category_spec c id n0 s0) as (Hin & Hoth & Hnd).
    rewrite E in Hin, Hoth, Hnd. cbn [fst] in Hin, Hoth, Hnd.
    destruct (IH c1 id1) as (Hoth' & Hnd' & Hin'). split; [| split].
    + intros x Hx. simpl in Hx. rewrite Hoth' by tauto. apply Hoth.
      intros Heq. apply Hx. left. now symmetry.
    + auto.
    + intros Hcs n s Hns. inversion Hcs as [| ? ? Hnotin Hcs']; subst.
      destruct Hns as [[= <- <-] | Hns]; [| now apply Hin'].
      destruct Hin as (x & Hx & Hs & Hn & Hp). exists x.
      split; [| auto]. apply Hoth'; [| exact Hx]. now rewrite Hs.
Qed.

(** X22.  Seeding happens once: [seed_data] leaves a database that holds any
    product as it is, does nothing without a database, and after it has run
    a second run changes nothing. *)
Theorem seed_data_once (db : option Db.t) :
  seed_data (seed_data db) = seed_data db /\
  (forall d, product (Db.store d) <> [] -> seed_data (Some d) = Some d) /\
  seed_data None = None.
Proof.
  assert (Hkeep : forall d, product (Db.store d) <> [] ->
                            seed_data (Some d) = Some d).
  { intros d Hne. unfold seed_data. rewrite find_one_any.
    destruct (product (Db.store d)); [contradiction | reflexivity]. }
  split; [| split; [exact Hkeep | reflexivity]].
  destruct db as [d |]; [| reflexivity].
  destruct (product (Db.store d)) as [| p0 l] eqn:Ep.
  - assert (Hrun : exists d', seed_data (Some d) = Some d' /\
                               product (Db.store d') <> []).
    { unfold seed_data. rewrite find_one_any, Ep. cbn [hd_error].
      destruct (fold_left upsert_brand _ _) as [brands id1].
      destruct (fold_left upsert_category _ _) as [cats id2].
      eexists. split; [reflexivity | discriminate]. }
    destruct Hrun as [d' [-> Hne]]. now apply Hkeep.
  - rewrite (Hkeep d) by (rewrite Ep; discriminate).
    apply Hkeep. rewrite Ep. discriminate.
Qed.

(** X23.  The first start: on a database without products [seed_data] stores the
    two demo products and nothing else in the handlers' collections; each
    demo brand is stored as given and each demo category under its slug with
    its name and no parent; brands and categories of other slugs are
    untouched; slugs that were unique stay unique; and every seeded product
    names a stored brand and a stored category. *)
Theorem seed_data_first_start (d : Db.t) :
  product (Db.store d) = [] ->
  exists d',
    seed_data (Some d) = Some d' /\
    products (Db.store d') = [HY2000i; JCB_18V_IMPACT] /\
    review (Db.store d') = review (Db.store d) /\
    sparepart (Db.store d') = sparepart (Db.store d) /\
    order (Db.store d') = order (Db.store d) /\
    In demo_brand_hyundai (without_id (Db.brand d')) /\
    In demo_brand_jcb (without_id (Db.brand d')) /\
    (forall x, brand_slug x <> "hyundai" -> brand_slug x <> "jcb" ->
               (In x (without_id (Db.brand d')) <->
                In x (without_id (Db.brand d)))) /\
    (NoDup (map brand_slug (without_id (Db.brand d))) ->
     NoDup (map brand_slug (without_id (Db.brand d')))) /\
    (forall n s, In (n, s) categories ->
                 exists x, In x (without_id (Db.category d')) /\
                           category_slug x = s /\ category_name x = n /\
                           parent_slug x = None) /\
    (forall x, ~ In (category_slug x) (map snd categories) ->
               (In x (without_id (Db.category d')) <->
                In x (without_id (Db.category d)))) /\
    (NoDup (map category_slug (without_id (Db.category d))) ->
     NoDup (map category_slug (without_id (Db.category d')))) /\
    (forall p, In p (products (Db.store d')) ->
               (exists b, In b (without_id (Db.brand d')) /\
                          brand_slug b = brand p) /\
               (exists c, In c (without_id (Db.category d')) /\
                          category_slug c = category p)).
Proof.
  intros Hempty. unfold seed_data. rewrite find_one_any, Hempty. cbn [hd_error].
  pose proof (fold_upsert_brand [demo_brand_hyundai; demo_brand_jcb]
                (Db.brand d) (next_id (Db.store d))) as (Hboth & Hbnd & Hbin).
  destruct (fold_left upsert_brand _ _) as [brands id1].
  pose proof (fold_upsert_category categories (Db.category d) id1)
    as (Hcoth & Hcnd & Hcin).
  destruct (fold_left upsert_category _ _) as [cats id2].
  cbn [fst] in *.
  assert (Hbs : NoDup (map brand_slug [demo_brand_hyundai; demo_brand_jcb])).
  { repeat constructor; simpl; intuition discriminate. }
  assert (Hcs : NoDup (map snd categories)).
  { repeat constructor; simpl; intuition discriminate. }
  assert (Hhy : In demo_brand_hyundai (without_id brands))
    by (apply Hbin; [exact Hbs | now left]).
  assert (Hjcb : In demo_brand_jcb (without_id brands))
    by (apply Hbin; [exact Hbs | right; now left]).
  eexists. split; [reflexivity |]. cbn [Db.store Db.brand Db.category
    product review sparepart order].
  split; [reflexivity |]. split; [reflexivity |]. split; [reflexivity |].
  split; [reflexivity |]. split; [exact Hhy |]. split; [exact Hjcb |].
  split.
  { intros x H1 H2. apply Hboth. simpl. intuition congruence. }
  split; [exact Hbnd |]. split; [exact (Hcin Hcs) |].
  split; [exact Hcoth |]. split; [exact Hcnd |].
  intros p Hp. unfold products, without_id in Hp. simpl in Hp.
  destruct Hp as [<- | [<- | []]].
  - split; [exists demo_brand_hyundai; auto |].
    destruct (Hcin Hcs "Generators" "generators") as (x & Hx & Hs & _);
      [simpl; auto | eauto].
  - split; [exists demo_brand_jcb; auto |].
    destruct (Hcin Hcs "Chainsaws" "chainsaws") as (x & Hx & Hs & _);
      [simpl; auto | eauto].
Qed.

Lemma seed_data_first_start_witness :
  exists d',
    seed_data (Some empty_db) = Some d' /\
    products (Db.store d') = [HY2000i; JCB_18V_IMPACT] /\
    review (Db.store d') = review (Db.store empty_db) /\
    sparepart (Db.store d') = sparepart (Db.store empty_db) /\
    order (Db.store d') = order (Db.store empty_db) /\
    In demo_brand_hyundai (without_id (Db.brand d')) /\
    In demo_brand_jcb (without_id (Db.brand d')) /\
    (forall x, brand_slug x <> "hyundai" -> brand_slug x <> "jcb" ->
               (In x (without_id (Db.brand d')) <->
                In x (without_id (Db.brand empty_db)))) /\
    (NoDup (map brand_slug (without_id (Db.brand empty_db))) ->
     NoDup (map brand_slug (without_id (Db.brand d')))) /\
    (forall n s, In (n, s) categories ->
                 exists x, In x (without_id (Db.category d')) /\
                           category_slug x = s /\ category_name x = n /\
                           parent_slug x = None) /\
    (forall x, ~ In (category_slug x) (map snd categories) ->
               (In x (without_id (Db.category d')) <->
                In x (without_id (Db.category empty_db)))) /\
    (NoDup (map category_slug (without_id (Db.category empty_db))) ->
     NoDup (map category_slug (without_id (Db.category d')))) /\
    (forall p, In p (products (Db.store d')) ->
               (exists b, In b (without_id (Db.brand d')) /\
                          brand_slug b = brand p) /\
               (exists c, In c (without_id (Db.category d')) /\
                          category_slug c = category p)).
Proof.
  apply (seed_data_first_start empty_db). reflexivity.
Defined.

(** The store the first start leaves is the seeded catalogue, identifiers
    apart. *)
Example first_start_products :
  option_map (fun d => products (Db.store d)) (seed_data (Some empty_db))
    = Some (products seeded).
Proof. reflexivity. Qed.

(** ** Instances

    The examples run the handlers with the URL validator and the pattern
    matcher of the examples. *)


Lemma scheme_and_more_normal : normal_form_is_kept scheme_and_more.
Proof.
  intros u normal. unfold scheme_and_more.
  destruct (orb _ _) eqn:E; [| discriminate].
  intros [= <-]. now rewrite E.
Qed.


(** The spec's fixture: the query GENERATOR matches the title of the seeded
    generator, and [search] with the default limit returns its record. *)
Example GENERATOR_matches :
  matches dots_and_letters "GENERATOR" "Hyundai 2000W Inverter Generator".
Proof. eexists. split; reflexivity. Qed.

Example search_GENERATOR :
  search scheme_and_more dots_and_letters (Some seeded) "GENERATOR" default_limit =
  Return [mkSearchSuggestion "HY2000i" "Hyundai 2000W Inverter Generator"
            "hyundai" "generators" (59999 # 100)
            (Some "https://images.unsplash.com/photo-1547234935-80c7145ec969?w=900")].
Proof. reflexivity. Qed.

(** The record holds the normal form of the first image, not the string
    as stored. *)
Example search_gives_normal_form :
  search root_path_added dots_and_letters
    (Some (mkStore
             [mkDocument 1
                (mkProduct "B" "Battery" [] None "acme" "tools" None None None
                   None None (mkPriceInfo 5 4 "GBP" true)
                   (Some (mkMedia (Some ["http://example.com"]) None None))
                   [] 0 0 [] [] 10)]
             [] [] [] 2))
    "battery" default_limit =
  Return [mkSearchSuggestion "B" "Battery" "acme" "tools" 5
            (Some "http://example.com/")].
Proof. reflexivity. Qed.


(** A first image that is no URL, a pattern the store refuses and a limit
    of 9 bytes make [search] fail where the spec has a result. *)
Example search_fails :
  search scheme_and_more dots_and_letters (Some bad_image) "battery" 8
    = Raise (ValidationError "image") /\
  search scheme_and_more dots_and_letters (Some seeded) "(" 8
    = Raise OperationFailure /\
  search scheme_and_more dots_and_letters (Some seeded) "generator"
    9223372036854775808 = Raise OverflowError.
Proof. repeat split. Qed.


Example spares_by_sku_and_title :
  spares_for dots_and_letters (Some fixture) (Some "P") (Some "PLUG")
    = Return (spares fixture) /\
  spares_for dots_and_letters (Some fixture) (Some "A") (Some "PLUG") = Return [] /\
  spares_for dots_and_letters (Some fixture) (Some "P") (Some "cable") = Return [].
Proof. repeat split. Qed.


Lemma invalid_input_refused_witness :
  refused (Some fixture)
    (post_review_route (Some fixture) 40 "P"
       (mkReviewBody (Some "P") (Some "t") (Some "b") (Some 6) (Some "me"))).
Proof.
  destruct (invalid_input_refused scheme_and_more (Some fixture) 40 "P")
    as [Hrating _].
  apply (Hrating _ 6); [reflexivity | lia].
Defined.

Lemma store_unavailable_witness :
  post_review_route None 40 "P" (model_dump_Review (mkReview "P" "t" "b" 4 "me"))
    = (Raise StoreUnavailable, None) /\
  checkout_route None 40 (model_dump_Order an_order)
    = (Raise StoreUnavailable, None).
Proof.
  destruct (store_unavailable scheme_and_more dots_and_letters 40 "P" "q" 8
              (model_dump_Review (mkReview "P" "t" "b" 4 "me"))
              (model_dump_Order an_order)) as (_ & Hr & _ & Ho & _).
  split.
  - apply Hr. apply validate_Review_ok with (rv := mkReview "P" "t" "b" 4 "me").
    reflexivity.
  - apply Ho. apply validate_Order_ok with (o := an_order). reflexivity.
Defined.

Lemma search_returns_first_matches_witness :
  exists test,
    dots_and_letters "generator" = Some test /\
    [suggestion_of scheme_and_more HY2000i] =
    map (suggestion_of scheme_and_more)
      (if 8 =? 0 then title_matches seeded test
       else firstn (Z.to_nat 8) (title_matches seeded test)).
Proof.
  apply (search_returns_first_matches scheme_and_more dots_and_letters seeded
           "generator" 8 [suggestion_of scheme_and_more HY2000i]);
    [lia | reflexivity].
Defined.

Lemma search_failures_witness :
  search scheme_and_more dots_and_letters (Some bad_image) "battery" 8
    = Raise (ValidationError "image") <->
  ((String.length "battery" < 1 \/ 60 < String.length "battery")%nat /\
   ValidationError "image" = RequestValidationError "q") \/
  ((1 <= String.length "battery" <= 60)%nat /\
   Cursor.max_int64 < 8 /\ ValidationError "image" = OverflowError) \/
  ((1 <= String.length "battery" <= 60)%nat /\
   8 <= Cursor.max_int64 /\ dots_and_letters "battery" = None /\
   ValidationError "image" = OperationFailure) \/
  ((1 <= String.length "battery" <= 60)%nat /\
   8 <= Cursor.max_int64 /\ ValidationError "image" = ValidationError "image" /\
   exists test p u,
     dots_and_letters "battery" = Some test /\
     In p (first_matches bad_image test 8) /\
     first_image_or_absent p = Some u /\ scheme_and_more u = None).
Proof.
  apply (search_failures scheme_and_more dots_and_letters bad_image "battery" 8
           (ValidationError "image")).
  lia.
Defined.

Lemma spares_for_intersect_witness :
  exists by_sku by_title,
    spares_for dots_and_letters (Some fixture) (Some "P") None = Return by_sku /\
    spares_for dots_and_letters (Some fixture) None (Some "plug")
      = Return by_title /\
    forall s, In s (spares fixture) <-> In s by_sku /\ In s by_title.
Proof.
  apply (spares_for_intersect dots_and_letters fixture (Some "P") (Some "plug")
           (spares fixture)).
  reflexivity.
Defined.

Lemma validate_dump_round_trip_witness :
  validate_Review (model_dump_Review (mkReview "P" "t" "b" 4 "me"))
    = Return (mkReview "P" "t" "b" 4 "me") /\
  validate_Order (model_dump_Order an_order) = Return an_order.
Proof.
  destruct (validate_dump_round_trip
              (mkReviewBody (Some "P") (Some "t") (Some "b") (Some 4) (Some "me"))
              (model_dump_Order an_order)
              (mkReview "P" "t" "b" 4 "me") an_order) as (Hr & Ho & _).
  split; [apply Hr | apply Ho]; reflexivity.
Defined.

Lemma validate_Product_round_trip_witness :
  validate_PriceInfo (model_dump_PriceInfo (price HY2000i)) = Return (price HY2000i) /\
  validate_Product scheme_and_more (model_dump_Product HY2000i) = Return HY2000i.
Proof.
  destruct (validate_Product_round_trip scheme_and_more
              (model_dump_PriceInfo (price HY2000i)) (model_dump_Product HY2000i)
              (price HY2000i) HY2000i) as (Hp & Hprod).
  split; [apply Hp; reflexivity |].
  apply Hprod; [apply scheme_and_more_normal | reflexivity].
Defined.

(** A product given with a URL without path is stored with the root path,
    and validating what was stored changes nothing more. *)
Example validate_Product_normal_form :
  let body :=
    mkProductBody (Some "B") (Some "Battery") None None (Some "acme")
      (Some "tools") None None None None None
      (Some (mkPriceInfoBody (Some 5%Q) (Some 4%Q) None None))
      (Some (mkMediaBody (Some ["http://example.com"]) None None))
      None None None None None None in
  exists p,
    validate_Product root_path_added body = Return p /\
    option_map images (media p) = Some (Some ["http://example.com/"]) /\
    validate_Product root_path_added (model_dump_Product p) = Return p.
Proof. eexists. repeat split. Qed.

Lemma seed_data_once_witness :
  seed_data (Some (Db.mk seeded [] [])) = Some (Db.mk seeded [] []).
Proof.
  destruct (seed_data_once None) as (_ & Hkeep & _).
  apply Hkeep. discriminate.
Defined.

Lemma review_body_sku_required_and_ignored_witness :
  refused (Some fixture)
    (post_review_route (Some fixture) 40 "P"
       (mkReviewBody None (Some "t") (Some "b") (Some 4) (Some "me"))) /\
  post_review (Some fixture) 40 "P" (mkReview "x" "t" "b" 4 "me")
    = post_review (Some fixture) 40 "P" (mkReview "y" "t" "b" 4 "me").
Proof.
  destruct (review_body_sku_required_and_ignored (Some fixture) 40 "P")
    as (Hreq & Hign).
  split; [apply Hreq | apply Hign]; reflexivity.
Defined.
